(** * otelcolconvert: the OpenTelemetry Collector to Alloy graph dispatcher

    A shallow embedding of
    [internal/converter/internal/otelcolconvert/otelcolconvert.go]:
    [filterIDs], [buildConverterTable], [getFactories],
    [validateNoDuplicateReceivers], [AppendConfig],
    [readOpentelemetryConfig] and [Convert].

    Go maps are [gmap]s, the set [map[component.ID]struct{}] is a [gset],
    slices are lists, [panic] is the [Panicked] outcome of a small
    state-and-panic monad that threads the output file. *)

From Stdlib Require Import Strings.String Strings.Ascii Strings.Byte.
From stdpp Require Import base option list gmap strings.

Open Scope string_scope.
Open Scope list_scope.

#[local] Set Warnings "-clear-no-such-hyp".

(** ** component identities and registry keys *)

(** [component.Kind]. *)
Inductive Kind :=
  | KindReceiver
  | KindProcessor
  | KindExporter
  | KindExtension
  | KindConnector.

#[global] Instance Kind_eq_dec : EqDecision Kind.
Proof. solve_decision. Defined.

Definition Kind_to_nat (k : Kind) : nat :=
  match k with
  | KindReceiver => 0
  | KindProcessor => 1
  | KindExporter => 2
  | KindExtension => 3
  | KindConnector => 4
  end.

Definition Kind_of_nat (n : nat) : option Kind :=
  match n with
  | 0 => Some KindReceiver
  | 1 => Some KindProcessor
  | 2 => Some KindExporter
  | 3 => Some KindExtension
  | 4 => Some KindConnector
  | _ => None
  end.

#[global] Instance Kind_countable : Countable Kind.
Proof.
  apply (inj_countable Kind_to_nat Kind_of_nat).
  intros []; reflexivity.
Defined.

(** [component.ID]: a component type and an instance name. *)
Record ID := { typeVal : string; nameVal : string }.

#[global] Instance ID_eq_dec : EqDecision ID.
Proof. solve_decision. Defined.

#[global] Instance ID_countable : Countable ID.
Proof.
  apply (inj_countable' (fun i => (typeVal i, nameVal i))
                        (fun p => {| typeVal := p.1; nameVal := p.2 |})).
  intros []; reflexivity.
Defined.

(** [component.ID.String]: the type alone when the name is empty, else
    [type/name]. *)
Definition IDString (i : ID) : string :=
  if decide (nameVal i = "") then typeVal i
  else typeVal i +:+ "/" +:+ nameVal i.

(** [componentstatus.InstanceID]: an identity together with the role it is
    instantiated in. *)
Record InstanceID := { ComponentID : ID; InstanceKind : Kind }.

#[global] Instance InstanceID_eq_dec : EqDecision InstanceID.
Proof. solve_decision. Defined.

Definition NewInstanceID (id : ID) (kind : Kind) : InstanceID :=
  {| ComponentID := id; InstanceKind := kind |}.

(** [converterKey]: the registry key, an identity without its name. *)
Record converterKey := { keyKind : Kind; keyType : string }.

#[global] Instance converterKey_eq_dec : EqDecision converterKey.
Proof. solve_decision. Defined.

#[global] Instance converterKey_countable : Countable converterKey.
Proof.
  apply (inj_countable' (fun k => (keyKind k, keyType k))
                        (fun p => {| keyKind := p.1; keyType := p.2 |})).
  intros []; reflexivity.
Defined.

(** ** factories and converters *)

(** The dynamic type of a [component.Factory], as the type switches of
    [getFactories] and [buildConverterTable] see it.  The five factory
    interfaces of the collector exclude one another, so a factory has one
    shape; [OtherFactory] is a [component.Factory] that is none of them. *)
Inductive FactoryShape :=
  | ReceiverFactory
  | ProcessorFactory
  | ExporterFactory
  | ExtensionFactory
  | ConnectorFactory
  | OtherFactory.

#[global] Instance FactoryShape_eq_dec : EqDecision FactoryShape.
Proof. solve_decision. Defined.

Record Factory := { factShape : FactoryShape; factType : string }.

#[global] Instance Factory_eq_dec : EqDecision Factory.
Proof. solve_decision. Defined.

(** A [ComponentConverter] object.  The interface is first-order here: the
    object is its identity ([convName]) with the results of its [Factory]
    and [InputComponentName] methods; its [ConvertAndAppend] method is the
    collaborator [ConvertAndAppend] below, indexed by the object. *)
Record ComponentConverter := {
  convName : string;
  ConvFactory : Factory;
  InputComponentName : string
}.

#[global] Instance ComponentConverter_eq_dec : EqDecision ComponentConverter.
Proof. solve_decision. Defined.

(** ** diagnostics *)

(** Modelled from the spec: the [diag] package is not part of the sources;
    a diagnostic is a severity and a message, [Diagnostics] an ordered
    list, [Add] and [AddAll] append. *)
Inductive Severity :=
  | SeverityLevelInfo
  | SeverityLevelWarn
  | SeverityLevelError
  | SeverityLevelCritical.

#[global] Instance Severity_eq_dec : EqDecision Severity.
Proof. solve_decision. Defined.

Record Diagnostic := { DiagSeverity : Severity; DiagMessage : string }.

#[global] Instance Diagnostic_eq_dec : EqDecision Diagnostic.
Proof. solve_decision. Defined.

Abbreviation Diagnostics := (list Diagnostic).

Definition Add (diags : Diagnostics) (sev : Severity) (msg : string) : Diagnostics :=
  diags ++ [{| DiagSeverity := sev; DiagMessage := msg |}].

Definition AddAll (diags newDiags : Diagnostics) : Diagnostics :=
  diags ++ newDiags.

Definition isCritical (d : Diagnostic) : bool :=
  bool_decide (DiagSeverity d = SeverityLevelCritical).

Definition hasCritical (diags : Diagnostics) : bool :=
  existsb isCritical diags.

(** ** filterIDs *)

(** The inner loop of [filterIDs]: [exists] becomes true at every element
    of [rem] equal to [set] and is never reset. *)
Definition existsIn (set : ID) (rem : list ID) : bool :=
  foldl (fun exists_ id => if decide (set = id) then true else exists_) false rem.

(** [filterIDs]: the outer loop appends [set] to [res] when the inner loop
    found no equal element. *)
Definition filterIDs (in_ rem : list ID) : list ID :=
  foldl (fun res set => if existsIn set rem then res else res ++ [set]) [] in_.

(** ** filterIDs on Go slices

    The same function with its slices in memory, to say what it writes.  A
    slice is a window on a backing array of the heap, the nil slice is
    [None]; [append] writes in place while the capacity lasts and moves the
    elements to a new array otherwise. *)
Record Slice := {
  sliceArray : nat;
  sliceOffset : nat;
  sliceLen : nat;
  sliceCap : nat
}.

(** The heap: the backing arrays, by address. *)
Abbreviation Heap := (list (list ID)).

(** The zero value of [component.ID]. *)
Definition zeroID : ID := {| typeVal := ""; nameVal := "" |}.

(** [s[i]]. *)
Definition index (h : Heap) (s : Slice) (i : nat) : ID :=
  default zeroID (h !! sliceArray s ≫= fun a => a !! (sliceOffset s + i)).

(** The elements a slice holds. *)
Definition contents (h : Heap) (s : option Slice) : list ID :=
  match s with
  | None => []
  | Some s => map (index h s) (seq 0 (sliceLen s))
  end.

(** A slice lies within an array of the heap. *)
Definition inHeap (h : Heap) (s : option Slice) : Prop :=
  match s with
  | None => True
  | Some s =>
      exists a, h !! sliceArray s = Some a
                /\ sliceOffset s + sliceCap s <= length a
                /\ sliceLen s <= sliceCap s
  end.

(** [append(s, x)]; [grow n] is the capacity the runtime gives a new array
    for [n] elements, never less than [n]. *)
Definition appendID (grow : nat -> nat) (h : Heap) (s : option Slice) (x : ID)
    : Heap * option Slice :=
  let n := match s with None => 0 | Some s => sliceLen s end in
  let newcap := max (S n) (grow (S n)) in
  let moved :=
    (h ++ [contents h s ++ x :: replicate (newcap - S n) zeroID],
     Some {| sliceArray := length h; sliceOffset := 0; sliceLen := S n;
             sliceCap := newcap |}) in
  match s with
  | None => moved
  | Some s' =>
      if decide (sliceLen s' < sliceCap s') then
        (alter (fun a => <[sliceOffset s' + sliceLen s' := x]> a) (sliceArray s') h,
         Some {| sliceArray := sliceArray s'; sliceOffset := sliceOffset s';
                 sliceLen := S (sliceLen s'); sliceCap := sliceCap s' |})
      else moved
  end.

(** The body of the outer loop at index [i]: [set] is read from the heap
    as it is then. *)
Definition filterStep (grow : nat -> nat) (in_ : Slice) (rem : option Slice)
    (acc : Heap * option Slice) (i : nat) : Heap * option Slice :=
  let '(h, res) := acc in
  let set := index h in_ i in
  if existsIn set (contents h rem) then (h, res) else appendID grow h res set.

(** [filterIDs] on the heap: [res] starts nil. *)
Definition filterIDsOnHeap (grow : nat -> nat) (h : Heap) (in_ rem : option Slice)
    : Heap * option Slice :=
  match in_ with
  | None => (h, None)
  | Some s => foldl (filterStep grow s rem) (h, None) (seq 0 (sliceLen s))
  end.

(** ** the converter table *)

(** The type switch of [buildConverterTable]; it has no default case, so
    another shape leaves [kinds] nil. *)
Definition factoryKinds (fact : Factory) : list Kind :=
  match factShape fact with
  | ReceiverFactory => [KindReceiver]
  | ProcessorFactory => [KindProcessor]
  | ExporterFactory => [KindExporter]
  | ConnectorFactory => [KindConnector; KindExporter; KindReceiver]
  | ExtensionFactory => [KindExtension]
  | OtherFactory => []
  end.

Abbreviation converterTable := (gmap converterKey ComponentConverter).

(** The body of the loop over [kinds]: an occupied key is skipped. *)
Definition registerKind (conv : ComponentConverter) (table : converterTable)
    (kind : Kind) : converterTable :=
  let key := {| keyKind := kind; keyType := factType (ConvFactory conv) |} in
  match table !! key with
  | Some _ => table
  | None => <[key := conv]> table
  end.

Definition registerConverter (table : converterTable) (conv : ComponentConverter)
    : converterTable :=
  let fact := ConvFactory conv in
  let kinds := factoryKinds fact in
  foldl (registerKind conv) table kinds.

(** ** the source configuration *)

(** [component.Config] is Go's [any]; the dispatcher never inspects a
    component's configuration, it hands it to the strategy. *)
Definition ComponentConfig : Type := string.

(** Modelled from the spec: the pipeline types are declared outside the
    sources; a pipeline is a signal kind with three ordered identity lists,
    and the service holds a map from pipeline identity to pipeline. *)
Record PipelineID := { pipelineSignal : string; pipelineName : string }.

#[global] Instance PipelineID_eq_dec : EqDecision PipelineID.
Proof. solve_decision. Defined.

#[global] Instance PipelineID_countable : Countable PipelineID.
Proof.
  apply (inj_countable' (fun i => (pipelineSignal i, pipelineName i))
                        (fun p => {| pipelineSignal := p.1; pipelineName := p.2 |})).
  intros []; reflexivity.
Defined.

Record PipelineConfig := {
  PipelineReceivers : list ID;
  PipelineProcessors : list ID;
  PipelineExporters : list ID
}.

Module service.
Record Config := {
  Extensions : list ID;
  Pipelines : gmap PipelineID PipelineConfig
}.
End service.

Module otelcol.
Record Config := {
  Receivers : gmap ID ComponentConfig;
  Processors : gmap ID ComponentConfig;
  Exporters : gmap ID ComponentConfig;
  Connectors : gmap ID ComponentConfig;
  Extensions : gmap ID ComponentConfig;
  Service : service.Config
}.

(** [otelcol.Factories]: one map from component type to factory per role. *)
Record Factories := {
  ReceiverFactories : gmap string Factory;
  ProcessorFactories : gmap string Factory;
  ExporterFactories : gmap string Factory;
  ExtensionFactories : gmap string Factory;
  ConnectorFactories : gmap string Factory
}.
End otelcol.

(** Modelled from the spec: [pipelineGroup] and [createPipelineGroups] are
    not part of the sources.  A group exposes its name and the receiver,
    processor and exporter identities of its member pipelines; the three
    lists are the results of its [Receivers], [Processors] and [Exporters]
    methods. *)
Record pipelineGroup := {
  GroupName : string;
  Receivers : list ID;
  Processors : list ID;
  Exporters : list ID
}.

#[global] Instance pipelineGroup_eq_dec : EqDecision pipelineGroup.
Proof. solve_decision. Defined.

(** [pipelineGroup{}], the placeholder group of the extension phase. *)
Definition emptyGroup : pipelineGroup :=
  {| GroupName := ""; Receivers := []; Processors := []; Exporters := [] |}.

(** The Alloy-side [componentID]: a block name split at its dots, and a
    label. *)
Record componentID := { Name : list string; Label : string }.

(** The [componentConfig] field of [State] holds the whole extension map in
    the extension phase and one component's configuration (nil when the
    lookup misses) in the group phase. *)
Inductive StateConfig :=
  | AllConfigs (m : gmap ID ComponentConfig)
  | OneConfig (c : option ComponentConfig).

(** [State], the per-node conversion context, without its [file] field:
    the file is the state threaded by [M] below. *)
Record State := {
  cfg : otelcol.Config;
  group : pipelineGroup;
  converterLookup : converterTable;
  extensionLookup : gmap ID componentID;
  componentConfig : StateConfig;
  stateComponentID : InstanceID;
  componentLabelPrefix : string
}.

(** [strings.Split(s, sep)] for a one-character separator: [cur] is the
    piece being read. *)
Fixpoint splitFrom (sep : ascii) (cur s : string) : list string :=
  match s with
  | EmptyString => [cur]
  | String c s' =>
      if decide (c = sep) then cur :: splitFrom sep "" s'
      else splitFrom sep (cur +:+ String c "") s'
  end.

Definition Split (s : string) (sep : ascii) : list string := splitFrom sep "" s.

(** [fmt.Sprintf("%s", args)] for a slice of strings: the elements between
    brackets, separated by spaces. *)
Definition SprintStrings (args : list string) : string :=
  "[" +:+ String.concat " " args +:+ "]".

(** ** panics and the conversion monad *)

(** The value of a [panic]: each constructor stands for the message the
    source formats from its argument,
    [otelcolconvert: no converter found for key %v] and
    [unknown component factory type %T]. *)
Inductive PanicValue :=
  | NoConverterFound (key : converterKey)
  | UnknownFactoryType (fact : Factory).

Inductive Outcome (A : Type) :=
  | Done (a : A)
  | Panicked (p : PanicValue).

Arguments Done {A} a.
Arguments Panicked {A} p.

Definition bindOutcome {A B} (m : Outcome A) (k : A -> Outcome B) : Outcome B :=
  match m with
  | Done a => k a
  | Panicked p => Panicked p
  end.

(** A loop over a slice whose body may panic. *)
Fixpoint foldOutcome {A B} (f : A -> B -> Outcome A) (a : A) (l : list B)
    : Outcome A :=
  match l with
  | [] => Done a
  | x :: l' => bindOutcome (f a x) (fun a' => foldOutcome f a' l')
  end.

(** One invocation of a strategy, as the ghost trace records it. *)
Record Call := {
  callConv : ComponentConverter;
  callState : State;
  callID : InstanceID;
  callConfig : option ComponentConfig
}.

(** The collaborators of the package, declared outside the sources. *)
Class Collaborators := {
  (** the package-level list [converters], filled by [init] functions *)
  converters : list ComponentConverter;
  (** [builder.File], the output graph *)
  File : Type;
  NewFile : File;
  (** [conv.ConvertAndAppend(state, id, cfg)]: the strategy mutates the
      file of its state and returns diagnostics *)
  ConvertAndAppend :
    ComponentConverter -> State -> InstanceID -> option ComponentConfig ->
    File -> File * Diagnostics;
  (** [state.AlloyComponentLabel()] *)
  AlloyComponentLabel : State -> string;
  (** [createPipelineGroups], an error or the groups *)
  createPipelineGroups : gmap PipelineID PipelineConfig -> string + list pipelineGroup;
  (** [strconv.Quote], the [%q] verb *)
  Quote : string -> string;
  (** [otelcol.NewConfigProvider] on the list of URIs *)
  ConfigProvider : Type;
  NewConfigProvider : list string -> string + ConfigProvider;
  (** [configProvider.Get(ctx, factories)] *)
  ProviderGet : ConfigProvider -> otelcol.Factories -> string + otelcol.Config;
  (** [cfg.Validate()], nil or an error *)
  Validate : otelcol.Config -> option string;
  (** [common.ValidateNodes] *)
  ValidateNodes : File -> Diagnostics;
  (** [f.WriteTo(&buf)]: an error, or the bytes of the buffer *)
  WriteTo : File -> string + list byte;
  (** [common.PrettyPrint]: a byte slice, nil or not, and diagnostics *)
  PrettyPrint : list byte -> option (list byte) * Diagnostics
}.

Section Converter.

Context {collaborators : Collaborators}.

(** The state a conversion threads: the output file, and the ghost trace
    of the strategy invocations made so far (the source keeps no such
    trace; it is there to state what the dispatcher invokes). *)
Record World := { file : File; calls : list Call }.

Definition M (A : Type) : Type := World -> Outcome (A * World).

Definition retM {A} (a : A) : M A := fun w => Done (a, w).

Definition bindM {A B} (m : M A) (k : A -> M B) : M B :=
  fun w =>
    match m w with
    | Done (a, w') => k a w'
    | Panicked p => Panicked p
    end.

Definition panic {A} (p : PanicValue) : M A := fun _ => Panicked p.

(** A loop over a slice whose body updates an accumulator, mutates the file
    and may panic. *)
Fixpoint foldM {A B} (f : A -> B -> M A) (a : A) (l : list B) : M A :=
  match l with
  | [] => retM a
  | x :: l' => bindM (f a x) (fun a' => foldM f a' l')
  end.

(** [conv.ConvertAndAppend(state, id, config)]. *)
Definition invoke (conv : ComponentConverter) (state : State) (id : InstanceID)
    (config : option ComponentConfig) : M Diagnostics :=
  fun w =>
    let '(f, diags) := ConvertAndAppend conv state id config (file w) in
    Done (diags,
          {| file := f;
             calls := calls w ++ [{| callConv := conv; callState := state;
                                     callID := id; callConfig := config |}] |}).

(** ** buildConverterTable *)

Definition buildConverterTable (extraConverters : list ComponentConverter)
    : converterTable :=
  let table : converterTable := ∅ in
  (* Ordering is critical here because conflicting converters are resolved
     with the first one in the list winning. *)
  let allConverters := extraConverters ++ converters in
  foldl registerConverter table allConverters.

(** ** getFactories *)

Definition emptyFactories : otelcol.Factories :=
  {| otelcol.ReceiverFactories := ∅; otelcol.ProcessorFactories := ∅;
     otelcol.ExporterFactories := ∅; otelcol.ExtensionFactories := ∅;
     otelcol.ConnectorFactories := ∅ |}.

(** The type switch of [getFactories], with its panicking default case. *)
Definition addFactory (facts : otelcol.Factories) (converter : ComponentConverter)
    : Outcome otelcol.Factories :=
  let fact := ConvFactory converter in
  let ty := factType fact in
  match factShape fact with
  | ReceiverFactory =>
      Done {| otelcol.ReceiverFactories := <[ty := fact]> (otelcol.ReceiverFactories facts);
              otelcol.ProcessorFactories := otelcol.ProcessorFactories facts;
              otelcol.ExporterFactories := otelcol.ExporterFactories facts;
              otelcol.ExtensionFactories := otelcol.ExtensionFactories facts;
              otelcol.ConnectorFactories := otelcol.ConnectorFactories facts |}
  | ProcessorFactory =>
      Done {| otelcol.ReceiverFactories := otelcol.ReceiverFactories facts;
              otelcol.ProcessorFactories := <[ty := fact]> (otelcol.ProcessorFactories facts);
              otelcol.ExporterFactories := otelcol.ExporterFactories facts;
              otelcol.ExtensionFactories := otelcol.ExtensionFactories facts;
              otelcol.ConnectorFactories := otelcol.ConnectorFactories facts |}
  | ExporterFactory =>
      Done {| otelcol.ReceiverFactories := otelcol.ReceiverFactories facts;
              otelcol.ProcessorFactories := otelcol.ProcessorFactories facts;
              otelcol.ExporterFactories := <[ty := fact]> (otelcol.ExporterFactories facts);
              otelcol.ExtensionFactories := otelcol.ExtensionFactories facts;
              otelcol.ConnectorFactories := otelcol.ConnectorFactories facts |}
  | ExtensionFactory =>
      Done {| otelcol.ReceiverFactories := otelcol.ReceiverFactories facts;
              otelcol.ProcessorFactories := otelcol.ProcessorFactories facts;
              otelcol.ExporterFactories := otelcol.ExporterFactories facts;
              otelcol.ExtensionFactories := <[ty := fact]> (otelcol.ExtensionFactories facts);
              otelcol.ConnectorFactories := otelcol.ConnectorFactories facts |}
  | ConnectorFactory =>
      Done {| otelcol.ReceiverFactories := otelcol.ReceiverFactories facts;
              otelcol.ProcessorFactories := otelcol.ProcessorFactories facts;
              otelcol.ExporterFactories := otelcol.ExporterFactories facts;
              otelcol.ExtensionFactories := otelcol.ExtensionFactories facts;
              otelcol.ConnectorFactories := <[ty := fact]> (otelcol.ConnectorFactories facts) |}
  | OtherFactory => Panicked (UnknownFactoryType fact)
  end.

Definition getFactories : Outcome otelcol.Factories :=
  foldOutcome addFactory emptyFactories converters.

(** ** validateNoDuplicateReceivers *)

Definition duplicateReceiverMessage (receiver : ID) : string :=
  "the configuration is unsupported because the receiver "
  +:+ Quote (IDString receiver)
  +:+ " is used across multiple pipelines with distinct names".

(** The body of the inner loop: a diagnostic when the receiver was seen
    before; the receiver is recorded in both cases and the loop goes on. *)
Definition checkReceiver (acc : Diagnostics * gset ID) (receiver : ID)
    : Diagnostics * gset ID :=
  let '(diags, usedReceivers) := acc in
  let diags :=
    if decide (receiver ∈ usedReceivers)
    then Add diags SeverityLevelCritical (duplicateReceiverMessage receiver)
    else diags in
  (diags, {[receiver]} ∪ usedReceivers).

Definition checkGroup (connectorIDs : list ID) (acc : Diagnostics * gset ID)
    (group : pipelineGroup) : Diagnostics * gset ID :=
  let receiverIDs := filterIDs (Receivers group) connectorIDs in
  foldl checkReceiver acc receiverIDs.

Definition validateNoDuplicateReceivers (groups : list pipelineGroup)
    (connectorIDs : list ID) : Diagnostics :=
  let diags : Diagnostics := [] in
  let usedReceivers : gset ID := ∅ in
  (foldl (checkGroup connectorIDs) (diags, usedReceivers) groups).1.

(** ** AppendConfig *)

(** [maps.Keys] returns the keys of a Go map in an indeterminate order.
    The order a run observes is an argument of the model: an oracle from a
    map to a list of its keys. *)
Definition KeysOracle : Type := gmap ID ComponentConfig -> list ID.

(** What [maps.Keys] guarantees: every key, once. *)
Definition validKeys (keys : KeysOracle) : Prop :=
  forall m, keys m ≡ₚ elements (dom m).

(** The body of the loop over [cfg.Service.Extensions]. *)
Definition convertExtension (c : otelcol.Config) (labelPrefix : string)
    (table : converterTable) (acc : Diagnostics * gmap ID componentID) (ext : ID)
    : M (Diagnostics * gmap ID componentID) :=
  let '(diags, extensionTable) := acc in
  let cid := NewInstanceID ext KindExtension in
  let state :=
    {| cfg := c;
       group := emptyGroup;
       converterLookup := table;
       extensionLookup := ∅;
       componentConfig := AllConfigs (otelcol.Extensions c);
       stateComponentID := cid;
       componentLabelPrefix := labelPrefix |} in
  let key := {| keyKind := KindExtension; keyType := typeVal ext |} in
  match table !! key with
  | None => panic (NoConverterFound key)
  | Some conv =>
      bindM (invoke conv state cid (otelcol.Extensions c !! ext)) (fun d =>
      retM (AddAll diags d,
            <[ext := {| Name := Split (InputComponentName conv) ".";
                        Label := AlloyComponentLabel state |}]> extensionTable))
  end.

(** One entry of [componentSets]. *)
Record componentSet := {
  setKind : Kind;
  setIDs : list ID;
  configLookup : gmap ID ComponentConfig
}.

(** The body of the innermost loop, over the identities of a set. *)
Definition convertComponent (c : otelcol.Config) (labelPrefix : string)
    (table : converterTable) (extensionTable : gmap ID componentID)
    (g : pipelineGroup) (set : componentSet) (diags : Diagnostics) (id : ID)
    : M Diagnostics :=
  let cid := NewInstanceID id (setKind set) in
  let state :=
    {| cfg := c;
       group := g;
       converterLookup := table;
       extensionLookup := extensionTable;
       componentConfig := OneConfig (configLookup set !! id);
       stateComponentID := cid;
       componentLabelPrefix := labelPrefix |} in
  let key := {| keyKind := setKind set; keyType := typeVal id |} in
  match table !! key with
  | None => panic (NoConverterFound key)
  | Some conv =>
      bindM (invoke conv state cid (configLookup set !! id)) (fun d =>
      retM (AddAll diags d))
  end.

Definition convertSet (c : otelcol.Config) (labelPrefix : string)
    (table : converterTable) (extensionTable : gmap ID componentID)
    (g : pipelineGroup) (diags : Diagnostics) (set : componentSet)
    : M Diagnostics :=
  foldM (convertComponent c labelPrefix table extensionTable g set) diags (setIDs set).

(** The body of the loop over the groups. *)
Definition convertGroup (c : otelcol.Config) (labelPrefix : string)
    (table : converterTable) (extensionTable : gmap ID componentID)
    (connectorIDs : list ID) (diags : Diagnostics) (g : pipelineGroup)
    : M Diagnostics :=
  let receiverIDs := filterIDs (Receivers g) connectorIDs in
  let processorIDs := Processors g in
  let exporterIDs := filterIDs (Exporters g) connectorIDs in
  let componentSets :=
    [ {| setKind := KindReceiver; setIDs := receiverIDs;
         configLookup := otelcol.Receivers c |};
      {| setKind := KindProcessor; setIDs := processorIDs;
         configLookup := otelcol.Processors c |};
      {| setKind := KindExporter; setIDs := exporterIDs;
         configLookup := otelcol.Exporters c |};
      {| setKind := KindConnector; setIDs := connectorIDs;
         configLookup := otelcol.Connectors c |} ] in
  foldM (convertSet c labelPrefix table extensionTable g) diags componentSets.

(** [AppendConfig(file, cfg, labelPrefix, extraConverters)]: the file is the
    state of [M]; [keys] is the order [maps.Keys] yields in this run. *)
Definition AppendConfig (keys : KeysOracle) (c : otelcol.Config)
    (labelPrefix : string) (extraConverters : list ComponentConverter)
    : M Diagnostics :=
  let diags : Diagnostics := [] in
  match createPipelineGroups (service.Pipelines (otelcol.Service c)) with
  | inl err =>
      retM (Add diags SeverityLevelCritical ("failed to interpret config: " +:+ err))
  | inr groups =>
      let table := buildConverterTable extraConverters in
      let connectorIDs := keys (otelcol.Connectors c) in
      let duplicateDiags := validateNoDuplicateReceivers groups connectorIDs in
      if (0 <? length duplicateDiags)%nat then retM (AddAll diags duplicateDiags)
      else
        bindM (foldM (convertExtension c labelPrefix table) (diags, ∅)
                     (service.Extensions (otelcol.Service c)))
          (fun '(diags, extensionTable) =>
        bindM (foldM (convertGroup c labelPrefix table extensionTable connectorIDs)
                     diags groups)
          (fun diags =>
        retM diags))
  end.

(** ** Convert *)

Definition readOpentelemetryConfig (in_ : list byte)
    : Outcome (string + otelcol.Config) :=
  match NewConfigProvider ["yaml:" +:+ string_of_list_byte in_] with
  | inl err => Done (inl ("failed to create otelcol config provider: " +:+ err))
  | inr configProvider =>
      bindOutcome getFactories (fun factories =>
      match ProviderGet configProvider factories with
      | inl err => Done (inl ("failed to get otelcol config: " +:+ err))
      | inr c => Done (inr c)
      end)
  end.

(** [Convert(in, extraArgs)]; a nil byte slice is [None]. *)
Definition Convert (keys : KeysOracle) (in_ : list byte) (extraArgs : list string)
    : Outcome (option (list byte) * Diagnostics) :=
  let diags : Diagnostics := [] in
  if (0 <? length extraArgs)%nat then
    Done (None, Add diags SeverityLevelCritical
                  ("extra arguments are not supported for the otelcol converter: "
                   +:+ SprintStrings extraArgs))
  else
    bindOutcome (readOpentelemetryConfig in_) (fun r =>
    match r with
    | inl err => Done (None, Add diags SeverityLevelCritical err)
    | inr c =>
        match Validate c with
        | Some err =>
            Done (None, Add diags SeverityLevelCritical
                          ("failed to validate config: " +:+ err))
        | None =>
            let f := NewFile in
            bindOutcome (AppendConfig keys c "" [] {| file := f; calls := [] |})
              (fun '(appended, w) =>
            let f := file w in
            let diags := AddAll diags appended in
            let diags := AddAll diags (ValidateNodes f) in
            match WriteTo f with
            | inl err =>
                Done (None, Add diags SeverityLevelCritical
                              ("failed to render Alloy config: " +:+ err))
            | inr buf =>
                if (length buf =? 0)%nat then Done (None, diags)
                else
                  let '(prettyByte, newDiags) := PrettyPrint buf in
                  Done (prettyByte, AddAll diags newDiags)
            end)
        end
    end).

End Converter.

(** ** a small instance of the collaborators

    Six strategies, a table of named documents in place of the YAML
    reader, grouping of pipelines by name, and a file that is the list of
    the emitted block headers.  The examples below run the dispatcher on
    it. *)
Module Example.

Definition otlpReceiver : ComponentConverter :=
  {| convName := "otlpReceiverConverter";
     ConvFactory := {| factShape := ReceiverFactory; factType := "otlp" |};
     InputComponentName := "otelcol.receiver.otlp" |}.

Definition batchProcessor : ComponentConverter :=
  {| convName := "batchProcessorConverter";
     ConvFactory := {| factShape := ProcessorFactory; factType := "batch" |};
     InputComponentName := "otelcol.processor.batch" |}.

Definition otlpExporter : ComponentConverter :=
  {| convName := "otlpExporterConverter";
     ConvFactory := {| factShape := ExporterFactory; factType := "otlp" |};
     InputComponentName := "otelcol.exporter.otlp" |}.

Definition spanmetricsConnector : ComponentConverter :=
  {| convName := "spanmetricsConnectorConverter";
     ConvFactory := {| factShape := ConnectorFactory; factType := "spanmetrics" |};
     InputComponentName := "otelcol.connector.spanmetrics" |}.

Definition countConnector : ComponentConverter :=
  {| convName := "countConnectorConverter";
     ConvFactory := {| factShape := ConnectorFactory; factType := "count" |};
     InputComponentName := "otelcol.connector.count" |}.

Definition healthExtension : ComponentConverter :=
  {| convName := "healthCheckExtensionConverter";
     ConvFactory := {| factShape := ExtensionFactory; factType := "health_check" |};
     InputComponentName := "otelcol.extension.health_check" |}.

(** A caller-supplied override for the [otlp] receiver. *)
Definition customReceiver : ComponentConverter :=
  {| convName := "customReceiverConverter";
     ConvFactory := {| factShape := ReceiverFactory; factType := "otlp" |};
     InputComponentName := "custom.receiver" |}.

(** A converter whose factory is none of the five factory interfaces. *)
Definition strangeConverter : ComponentConverter :=
  {| convName := "strangeConverter";
     ConvFactory := {| factShape := OtherFactory; factType := "strange" |};
     InputComponentName := "custom.strange" |}.

Definition builtins : list ComponentConverter :=
  [otlpReceiver; batchProcessor; otlpExporter; spanmetricsConnector;
   countConnector; healthExtension].

Definition dquote : string := String "034"%char "".

Definition label (state : State) : string :=
  componentLabelPrefix state +:+ GroupName (group state) +:+ "_"
  +:+ nameVal (ComponentID (stateComponentID state)).

(** A strategy appends one block header and reports one diagnostic:
    critical when the component's configuration is the text
    [unsupported], informational otherwise. *)
Definition convert (conv : ComponentConverter) (state : State) (id : InstanceID)
    (config : option ComponentConfig) (f : list string)
    : list string * Diagnostics :=
  (f ++ [InputComponentName conv +:+ " " +:+ label state],
   [ {| DiagSeverity :=
          if decide (config = Some "unsupported") then SeverityLevelCritical
          else SeverityLevelInfo;
        DiagMessage := convName conv +:+ ": " +:+ IDString (ComponentID id) |} ]).

Definition mergeIDs (l1 l2 : list ID) : list ID :=
  l1 ++ list_difference l2 l1.

Definition addPipeline (gs : gmap string pipelineGroup)
    (e : PipelineID * PipelineConfig) : gmap string pipelineGroup :=
  let name := pipelineName e.1 in
  let g := default {| GroupName := name; Receivers := []; Processors := [];
                      Exporters := [] |} (gs !! name) in
  <[name := {| GroupName := name;
               Receivers := mergeIDs (Receivers g) (PipelineReceivers e.2);
               Processors := mergeIDs (Processors g) (PipelineProcessors e.2);
               Exporters := mergeIDs (Exporters g) (PipelineExporters e.2) |}]> gs.

(** Pipelines of one name form one group. *)
Definition groupByName (ps : gmap PipelineID PipelineConfig)
    : string + list pipelineGroup :=
  inr ((map_to_list (foldl addPipeline ∅ (map_to_list ps))).*2).

Definition render (f : list string) : string + list byte :=
  inr (list_byte_of_string (String.concat " {} " f)).

Definition mkID (ty name : string) : ID := {| typeVal := ty; nameVal := name |}.

Definition mkPipeline (signal name : string) (rs ps es : list ID)
    : PipelineID * PipelineConfig :=
  ({| pipelineSignal := signal; pipelineName := name |},
   {| PipelineReceivers := rs; PipelineProcessors := ps; PipelineExporters := es |}).

Definition mkConfig (rs ps es cs xs : list (ID * ComponentConfig))
    (exts : list ID) (pipes : list (PipelineID * PipelineConfig)) : otelcol.Config :=
  {| otelcol.Receivers := list_to_map rs;
     otelcol.Processors := list_to_map ps;
     otelcol.Exporters := list_to_map es;
     otelcol.Connectors := list_to_map cs;
     otelcol.Extensions := list_to_map xs;
     otelcol.Service :=
       {| service.Extensions := exts; service.Pipelines := list_to_map pipes |} |}.

(** One connector bridging the two pipelines named [a], and an unrelated
    pipeline named [b]: two groups. *)
Definition bridged : otelcol.Config :=
  mkConfig [(mkID "otlp" "in", ""); (mkID "otlp" "other", "")]
           []
           [(mkID "otlp" "out", ""); (mkID "otlp" "sink", "")]
           [(mkID "spanmetrics" "", "")]
           []
           []
           [ mkPipeline "traces" "a" [mkID "otlp" "in"] [] [mkID "spanmetrics" ""];
             mkPipeline "metrics" "a" [mkID "spanmetrics" ""] [] [mkID "otlp" "out"];
             mkPipeline "logs" "b" [mkID "otlp" "other"] [] [mkID "otlp" "sink"] ].

(** Two connectors between the pipelines of one group. *)
Definition twoConnectors : otelcol.Config :=
  mkConfig [(mkID "otlp" "", "")]
           []
           [(mkID "otlp" "", "")]
           [(mkID "spanmetrics" "", ""); (mkID "count" "", "")]
           []
           []
           [ mkPipeline "traces" "" [mkID "otlp" ""] []
               [mkID "spanmetrics" ""; mkID "count" ""];
             mkPipeline "metrics" "" [mkID "spanmetrics" ""; mkID "count" ""] []
               [mkID "otlp" ""] ].

(** A single pipeline whose exporter carries a setting its strategy
    reports as critical. *)
Definition flagged : otelcol.Config :=
  mkConfig [(mkID "otlp" "", "")]
           []
           [(mkID "otlp" "", "unsupported")]
           []
           []
           []
           [ mkPipeline "traces" "" [mkID "otlp" ""] [] [mkID "otlp" ""] ].

(** One receiver used by pipelines of three names. *)
Definition shared : otelcol.Config :=
  mkConfig [(mkID "otlp" "", "")]
           []
           [(mkID "otlp" "", "")]
           []
           []
           []
           [ mkPipeline "traces" "a" [mkID "otlp" ""] [] [mkID "otlp" ""];
             mkPipeline "traces" "b" [mkID "otlp" ""] [] [mkID "otlp" ""];
             mkPipeline "traces" "c" [mkID "otlp" ""] [] [mkID "otlp" ""] ].

(** No pipelines: rejected by [validate]. *)
Definition empty : otelcol.Config := mkConfig [] [] [] [] [] [] [].

(** The documents the reader knows, by name. *)
Definition documents : list (string * otelcol.Config) :=
  [ ("yaml:bridged", bridged); ("yaml:twoConnectors", twoConnectors);
    ("yaml:flagged", flagged); ("yaml:shared", shared); ("yaml:empty", empty) ].

Definition newProvider (uris : list string) : string + string :=
  match uris with
  | [uri] => inr uri
  | _ => inl "expected one URI"
  end.

Definition get (uri : string) (_ : otelcol.Factories) : string + otelcol.Config :=
  match list_find (fun d => d.1 = uri) documents with
  | Some (_, d) => inr d.2
  | None => inl "cannot unmarshal the configuration"
  end.

Definition validate (c : otelcol.Config) : option string :=
  if decide (service.Pipelines (otelcol.Service c) = ∅)
  then Some "service::pipelines: service must have at least one pipeline"
  else None.

Definition env : Collaborators :=
  {| converters := builtins;
     File := list string;
     NewFile := [];
     ConvertAndAppend := convert;
     AlloyComponentLabel := label;
     createPipelineGroups := groupByName;
     Quote := fun s => dquote +:+ s +:+ dquote;
     ConfigProvider := string;
     NewConfigProvider := newProvider;
     ProviderGet := get;
     Validate := validate;
     ValidateNodes := fun _ => [];
     WriteTo := render;
     PrettyPrint := fun buf => (Some buf, []) |}.

(** The same collaborators with strategies that never report more than
    an informational diagnostic. *)
Definition convertQuiet (conv : ComponentConverter) (state : State)
    (id : InstanceID) (config : option ComponentConfig) (f : list string)
    : list string * Diagnostics :=
  (f ++ [InputComponentName conv +:+ " " +:+ label state],
   [ {| DiagSeverity := SeverityLevelInfo;
        DiagMessage := convName conv +:+ ": " +:+ IDString (ComponentID id) |} ]).

Definition quiet : Collaborators :=
  {| converters := builtins;
     File := list string;
     NewFile := [];
     ConvertAndAppend := convertQuiet;
     AlloyComponentLabel := label;
     createPipelineGroups := groupByName;
     Quote := fun s => dquote +:+ s +:+ dquote;
     ConfigProvider := string;
     NewConfigProvider := newProvider;
     ProviderGet := get;
     Validate := validate;
     ValidateNodes := fun _ => [];
     WriteTo := render;
     PrettyPrint := fun buf => (Some buf, []) |}.

(** Three groups that all list the receiver [otlp]: the groups of
    [shared], in the order [groupByName] yields them. *)
Definition receiverGroup (name : string) : pipelineGroup :=
  {| GroupName := name; Receivers := [mkID "otlp" ""]; Processors := [];
     Exporters := [mkID "otlp" ""] |}.

Definition threeGroups : list pipelineGroup :=
  [receiverGroup "c"; receiverGroup "a"; receiverGroup "b"].

(** The groups of [bridged]. *)
Definition bridgedGroups : list pipelineGroup :=
  [ {| GroupName := "a";
       Receivers := [mkID "spanmetrics" ""; mkID "otlp" "in"];
       Processors := [];
       Exporters := [mkID "otlp" "out"; mkID "spanmetrics" ""] |};
    {| GroupName := "b";
       Receivers := [mkID "otlp" "other"];
       Processors := [];
       Exporters := [mkID "otlp" "sink"] |} ].

(** A heap of two arrays, and the slices [in] and [rem] on them. *)
Definition heap : Heap :=
  [ [mkID "otlp" ""; mkID "spanmetrics" ""; mkID "otlp" "2"];
    [mkID "spanmetrics" ""] ].

Definition inSlice : Slice :=
  {| sliceArray := 0; sliceOffset := 0; sliceLen := 3; sliceCap := 3 |}.

Definition remSlice : Slice :=
  {| sliceArray := 1; sliceOffset := 0; sliceLen := 1; sliceCap := 1 |}.

(** The world a conversion starts in: an empty file, no call made. *)
Definition start : @World env := @Build_World env [] [].

Definition info (msg : string) : Diagnostic :=
  {| DiagSeverity := SeverityLevelInfo; DiagMessage := msg |}.

(** The instances [AppendConfig] dispatches on [bridged]. *)
Definition bridgedInstances : list InstanceID :=
  [ NewInstanceID (mkID "otlp" "in") KindReceiver;
    NewInstanceID (mkID "otlp" "out") KindExporter;
    NewInstanceID (mkID "spanmetrics" "") KindConnector;
    NewInstanceID (mkID "otlp" "other") KindReceiver;
    NewInstanceID (mkID "otlp" "sink") KindExporter;
    NewInstanceID (mkID "spanmetrics" "") KindConnector ].

(** What a run of [AppendConfig] on the empty file leaves behind: the
    instances dispatched, the file, the diagnostics; nothing on a panic. *)
Definition dispatch (keys : KeysOracle) (c : otelcol.Config)
    (extraConverters : list ComponentConverter)
    : option (list InstanceID * list string * Diagnostics) :=
  match @AppendConfig env keys c "" extraConverters start with
  | Done (d, w') => Some (map callID (@calls env w'), @file env w', d)
  | Panicked _ => None
  end.

(** The collaborators with one more built-in converter, of unknown
    factory shape. *)
Definition broken : Collaborators :=
  {| converters := builtins ++ [strangeConverter];
     File := list string;
     NewFile := [];
     ConvertAndAppend := convert;
     AlloyComponentLabel := label;
     createPipelineGroups := groupByName;
     Quote := fun s => dquote +:+ s +:+ dquote;
     ConfigProvider := string;
     NewConfigProvider := newProvider;
     ProviderGet := get;
     Validate := validate;
     ValidateNodes := fun _ => [];
     WriteTo := render;
     PrettyPrint := fun buf => (Some buf, []) |}.

(** A pipeline whose receiver has a type no converter handles. *)
Definition unsupported : otelcol.Config :=
  mkConfig [(mkID "jaeger" "", "")]
           []
           [(mkID "otlp" "", "")]
           []
           []
           []
           [ mkPipeline "traces" "" [mkID "jaeger" ""] [] [mkID "otlp" ""] ].

Definition unsupportedGroups : list pipelineGroup :=
  [ {| GroupName := ""; Receivers := [mkID "jaeger" ""]; Processors := [];
       Exporters := [mkID "otlp" ""] |} ].

(** One pipeline with a processor, and a service extension. *)
Definition withExtension : otelcol.Config :=
  mkConfig [(mkID "otlp" "", "")]
           [(mkID "batch" "", "")]
           [(mkID "otlp" "", "")]
           []
           [(mkID "health_check" "", "")]
           [mkID "health_check" ""]
           [ mkPipeline "traces" "" [mkID "otlp" ""] [mkID "batch" ""]
               [mkID "otlp" ""] ].

Definition withExtensionGroups : list pipelineGroup :=
  [ {| GroupName := ""; Receivers := [mkID "otlp" ""];
       Processors := [mkID "batch" ""]; Exporters := [mkID "otlp" ""] |} ].

(** Two orders [maps.Keys] may yield. *)
Definition ascending : KeysOracle := fun m => elements (dom m).
Definition descending : KeysOracle := fun m => reverse (elements (dom m)).

End Example.

(** ** specification-side definitions *)

(** A converter declares a key when the key's kind is one of the kinds of
    its factory and the key's type is the factory's type. *)
Definition declares (key : converterKey) (conv : ComponentConverter) : Prop :=
  keyKind key ∈ factoryKinds (ConvFactory conv) /\
  keyType key = factType (ConvFactory conv).

#[global] Instance declares_dec key conv : Decision (declares key conv).
Proof. unfold declares. apply _. Defined.

(** The registry key a dispatched instance is looked up under. *)
Definition keyOf (i : InstanceID) : converterKey :=
  {| keyKind := InstanceKind i; keyType := typeVal (ComponentID i) |}.

Definition instancesOf (kind : Kind) (ids : list ID) : list InstanceID :=
  map (fun id => NewInstanceID id kind) ids.

(** The instances one group dispatches, in order. *)
Definition groupPlan (connectorIDs : list ID) (g : pipelineGroup) : list InstanceID :=
  instancesOf KindReceiver (filterIDs (Receivers g) connectorIDs)
  ++ instancesOf KindProcessor (Processors g)
  ++ instancesOf KindExporter (filterIDs (Exporters g) connectorIDs)
  ++ instancesOf KindConnector connectorIDs.

(** The instances a whole conversion dispatches, in order. *)
Definition dispatchPlan (extensions : list ID) (connectorIDs : list ID)
    (groups : list pipelineGroup) : list InstanceID :=
  instancesOf KindExtension extensions
  ++ flat_map (groupPlan connectorIDs) groups.

(** The elements of a list that occur in [seen] or earlier in the list, in
    order, once per such occurrence. *)
Fixpoint repeats (seen : gset ID) (l : list ID) : list ID :=
  match l with
  | [] => []
  | x :: l' =>
      (if decide (x ∈ seen) then [x] else []) ++ repeats ({[x]} ∪ seen) l'
  end.

(** The receivers the validator walks through, group after group. *)
Definition plainReceivers (groups : list pipelineGroup) (connectorIDs : list ID)
    : list ID :=
  flat_map (fun g => filterIDs (Receivers g) connectorIDs) groups.

Definition critical (msg : string) : Diagnostic :=
  {| DiagSeverity := SeverityLevelCritical; DiagMessage := msg |}.

(** A recorded call is consistent with a table when its converter is the
    table's entry for the key of the instance. *)
Definition consistent (table : converterTable) (call : Call) : Prop :=
  table !! keyOf (callID call) = Some (callConv call).

(** How often an instance was dispatched. *)
Definition occurrences (i : InstanceID) (l : list InstanceID) : nat :=
  length (filter (fun j => j = i) l).

(** What the loop of [filterIDsOnHeap] keeps true of its heap and of [res]:
    the arrays of the initial heap [h0] are all there, unchanged, and [res]
    is nil or lies in an array allocated since. *)
Definition freshRes (h0 h : Heap) (res : option Slice) : Prop :=
  (exists fresh, h = h0 ++ fresh)
  /\ inHeap h res
  /\ match res with
     | None => True
     | Some s => length h0 <= sliceArray s
     end.

(** The map of [otelcol.Factories] that holds the factories of a shape. *)
Definition factoriesOf (facts : otelcol.Factories) (shape : FactoryShape)
    : gmap string Factory :=
  match shape with
  | ReceiverFactory => otelcol.ReceiverFactories facts
  | ProcessorFactory => otelcol.ProcessorFactories facts
  | ExporterFactory => otelcol.ExporterFactories facts
  | ExtensionFactory => otelcol.ExtensionFactories facts
  | ConnectorFactory => otelcol.ConnectorFactories facts
  | OtherFactory => ∅
  end.

(** The factory of the last converter of a list whose factory has the
    given shape and type. *)
Fixpoint lastFactory (shape : FactoryShape) (ty : string)
    (l : list ComponentConverter) : option Factory :=
  match l with
  | [] => None
  | conv :: l' =>
      match lastFactory shape ty l' with
      | Some fact => Some fact
      | None =>
          if decide (factShape (ConvFactory conv) = shape
                     /\ factType (ConvFactory conv) = ty)
          then Some (ConvFactory conv) else None
      end
  end.

(** A converter whose factory is of one of the five shapes. *)
Definition knownShape (conv : ComponentConverter) : Prop :=
  factShape (ConvFactory conv) <> OtherFactory.

(** The first instance of a plan that the table has no converter for. *)
Definition firstMiss (table : converterTable) (plan : list InstanceID)
    : option InstanceID :=
  snd <$> list_find (fun i => table !! keyOf i = None) plan.

(** A run stops at the first miss of a plan: it panics with the key of the
    first instance without a converter, and returns when there is none. *)
Definition stopsAtFirstMiss {collaborators : Collaborators} {A : Type}
    (table : converterTable) (plan : list InstanceID)
    (r : Outcome (A * World)) : Prop :=
  match firstMiss table plan with
  | Some i => r = Panicked (NoConverterFound (keyOf i))
  | None => exists a w, r = Done (a, w)
  end.

(** The map of the configuration that holds the components of a role. *)
Definition roleConfigs (c : otelcol.Config) (kind : Kind)
    : gmap ID ComponentConfig :=
  match kind with
  | KindReceiver => otelcol.Receivers c
  | KindProcessor => otelcol.Processors c
  | KindExporter => otelcol.Exporters c
  | KindConnector => otelcol.Connectors c
  | KindExtension => otelcol.Extensions c
  end.

(** The context of an extension-phase invocation. *)
Definition extensionState (c : otelcol.Config) (labelPrefix : string)
    (table : converterTable) (ext : ID) : State :=
  {| cfg := c;
     group := emptyGroup;
     converterLookup := table;
     extensionLookup := ∅;
     componentConfig := AllConfigs (otelcol.Extensions c);
     stateComponentID := NewInstanceID ext KindExtension;
     componentLabelPrefix := labelPrefix |}.

(** The context of a group-phase invocation. *)
Definition groupState (c : otelcol.Config) (labelPrefix : string)
    (table : converterTable) (extensionTable : gmap ID componentID)
    (g : pipelineGroup) (i : InstanceID) : State :=
  {| cfg := c;
     group := g;
     converterLookup := table;
     extensionLookup := extensionTable;
     componentConfig := OneConfig (roleConfigs c (InstanceKind i) !! ComponentID i);
     stateComponentID := i;
     componentLabelPrefix := labelPrefix |}.

(** An extension-phase call as it should be: the table's converter for the
    extension, the extension context, the extension's configuration. *)
Definition extensionCallOK (c : otelcol.Config) (labelPrefix : string)
    (table : converterTable) (call : Call) : Prop :=
  exists ext,
    callID call = NewInstanceID ext KindExtension
    /\ table !! keyOf (callID call) = Some (callConv call)
    /\ callState call = extensionState c labelPrefix table ext
    /\ callConfig call = otelcol.Extensions c !! ext.

(** A group-phase call as it should be: the table's converter for the
    instance, the context of its group, the configuration stored under the
    identity in the map of its role. *)
Definition groupCallOK (c : otelcol.Config) (labelPrefix : string)
    (table : converterTable) (extensionTable : gmap ID componentID)
    (call : Call) : Prop :=
  table !! keyOf (callID call) = Some (callConv call)
  /\ callState call
     = groupState c labelPrefix table extensionTable
                  (group (callState call)) (callID call)
  /\ callConfig call
     = roleConfigs c (InstanceKind (callID call)) !! ComponentID (callID call).

(** The instances of the group phase, each with its group, in order. *)
Definition groupedPlan (connectorIDs : list ID) (groups : list pipelineGroup)
    : list (pipelineGroup * InstanceID) :=
  flat_map (fun g => map (pair g) (groupPlan connectorIDs g)) groups.

(** The entry the extension phase records for an extension. *)
Definition extensionEntry {collaborators : Collaborators} (c : otelcol.Config)
    (labelPrefix : string) (table : converterTable) (ext : ID)
    (conv : ComponentConverter) : componentID :=
  {| Name := Split (InputComponentName conv) ".";
     Label := AlloyComponentLabel (extensionState c labelPrefix table ext) |}.

(** The group a call was made for, and the instance. *)
Definition groupOf (call : Call) : pipelineGroup * InstanceID :=
  (group (callState call), callID call).


(** The role whose map of [otelcol.Factories] holds the factories of a
    shape. *)
Definition roleOf (shape : FactoryShape) : option Kind :=
  match shape with
  | ReceiverFactory => Some KindReceiver
  | ProcessorFactory => Some KindProcessor
  | ExporterFactory => Some KindExporter
  | ExtensionFactory => Some KindExtension
  | ConnectorFactory => Some KindConnector
  | OtherFactory => None
  end.

(** * Properties *)

Section Properties.

Context {collaborators : Collaborators}.

(** ** filterIDs *)

Lemma existsIn_from (set : ID) (rem : list ID) (b : bool) :
  foldl (fun exists_ id => if decide (set = id) then true else exists_) b rem
  = b || bool_decide (set ∈ rem).
Proof.
  revert b. induction rem as [|id rem IH]; intros b; cbn [foldl].
  - rewrite bool_decide_eq_false_2; [by rewrite orb_false_r | by apply not_elem_of_nil].
  - rewrite IH. destruct (decide (set = id)) as [->|Hne].
    + rewrite (bool_decide_eq_true_2 (id ∈ id :: rem)); [|by left].
      by rewrite orb_true_r.
    + destruct b; [done|]. simpl.
      apply bool_decide_ext. rewrite elem_of_cons. tauto.
Qed.

Lemma existsIn_spec (set : ID) (rem : list ID) :
  existsIn set rem = bool_decide (set ∈ rem).
Proof. unfold existsIn. by rewrite existsIn_from. Qed.

Lemma filterIDs_from (in_ rem res : list ID) :
  foldl (fun res set => if existsIn set rem then res else res ++ [set]) res in_
  = res ++ filter (fun x => x ∉ rem) in_.
Proof.
  revert res. induction in_ as [|x in_ IH]; intros res; cbn [foldl].
  - by rewrite app_nil_r.
  - rewrite IH, existsIn_spec. case_bool_decide as Hx.
    + rewrite filter_cons_False; [done | by intros Hn].
    + rewrite filter_cons_True by done. by rewrite <- app_assoc.
Qed.

Lemma filterIDs_filter (in_ rem : list ID) :
  filterIDs in_ rem = filter (fun x => x ∉ rem) in_.
Proof. unfold filterIDs. by rewrite filterIDs_from. Qed.

Lemma elem_of_filterIDs (x : ID) (in_ rem : list ID) :
  x ∈ filterIDs in_ rem <-> x ∈ in_ /\ x ∉ rem.
Proof. rewrite filterIDs_filter, list_elem_of_filter. tauto. Qed.

(** ** the converter table *)

Lemma registerKinds_lookup (conv : ComponentConverter) (kinds : list Kind)
    (table : converterTable) (key : converterKey) :
  foldl (registerKind conv) table kinds !! key
  = match table !! key with
    | Some c => Some c
    | None =>
        if decide (keyKind key ∈ kinds /\ keyType key = factType (ConvFactory conv))
        then Some conv else None
    end.
Proof.
  destruct key as [kk kt]. cbn [keyKind keyType].
  revert table. induction kinds as [|kind kinds IH]; intros table; cbn [foldl].
  - destruct (table !! _); [done|].
    rewrite decide_False; [done|]. intros [Hin _]. by apply not_elem_of_nil in Hin.
  - rewrite IH. unfold registerKind.
    set (k := {| keyKind := kind; keyType := factType (ConvFactory conv) |}).
    set (key := {| keyKind := kk; keyType := kt |}).
    destruct (table !! k) eqn:Hk.
    + destruct (table !! key) eqn:Hkey; [done|].
      apply decide_ext. rewrite elem_of_cons.
      split; [tauto|]. intros [[Hkind|Hin] Hty]; [|done].
      exfalso. subst kk kt. unfold k, key in *. congruence.
    + destruct (decide (k = key)) as [Heq|Hne].
      * rewrite <- Heq, lookup_insert_eq, Hk.
        unfold k, key in Heq. injection Heq as <- <-.
        rewrite decide_True; [done|]. split; [by left | done].
      * rewrite lookup_insert_ne by done.
        destruct (table !! key); [done|].
        apply decide_ext. rewrite elem_of_cons.
        split; [tauto|]. intros [[Hkind|Hin] Hty]; [|done].
        exfalso. apply Hne. unfold k, key. by subst.
Qed.

Lemma registerConverter_lookup (table : converterTable) (conv : ComponentConverter)
    (key : converterKey) :
  registerConverter table conv !! key
  = match table !! key with
    | Some c => Some c
    | None => if decide (declares key conv) then Some conv else None
    end.
Proof. unfold registerConverter. by rewrite registerKinds_lookup. Qed.

Lemma registerConverters_lookup (l : list ComponentConverter)
    (table : converterTable) (key : converterKey) :
  foldl registerConverter table l !! key
  = match table !! key with
    | Some c => Some c
    | None => snd <$> list_find (declares key) l
    end.
Proof.
  revert table. induction l as [|conv l IH]; intros table; cbn [foldl].
  - by destruct (table !! key).
  - rewrite IH, registerConverter_lookup.
    destruct (table !! key); [done|]. cbn [list_find].
    destruct (decide (declares key conv)); [done|].
    by destruct (list_find (declares key) l) as [[??]|].
Qed.

(** The table maps a key to the first converter of the combined list that
    declares it. *)
Lemma buildConverterTable_lookup (extraConverters : list ComponentConverter)
    (key : converterKey) :
  buildConverterTable extraConverters !! key
  = snd <$> list_find (declares key) (extraConverters ++ converters).
Proof.
  unfold buildConverterTable. by rewrite registerConverters_lookup, lookup_empty.
Qed.

(** ** the trace of a dispatch *)

Lemma flat_map_singleton {A B} (f : A -> B) (l : list A) :
  flat_map (fun x => [f x]) l = map f l.
Proof. induction l as [|x l IH]; simpl; [done | by rewrite IH]. Qed.

(** A loop in [M] whose body extends the trace by the calls of [plan]
    extends it by the plans of all its elements. *)
Lemma foldM_calls {A B} (f : A -> B -> M A) (plan : B -> list InstanceID)
    (P : Call -> Prop) :
  (forall a x w a' w', f a x w = Done (a', w') ->
     exists cs, calls w' = calls w ++ cs /\ map callID cs = plan x /\ Forall P cs) ->
  forall l a w a' w', foldM f a l w = Done (a', w') ->
     exists cs, calls w' = calls w ++ cs /\ map callID cs = flat_map plan l
                /\ Forall P cs.
Proof.
  intros Hf. induction l as [|x l IH]; intros a w a' w' Hrun; simpl in Hrun.
  - injection Hrun as <- <-. exists []. by rewrite app_nil_r.
  - unfold bindM in Hrun. destruct (f a x w) as [[a1 w1]|] eqn:Hstep; [|done].
    destruct (Hf _ _ _ _ _ Hstep) as (cs1 & Hc1 & Hm1 & HP1).
    destruct (IH _ _ _ _ Hrun) as (cs2 & Hc2 & Hm2 & HP2).
    exists (cs1 ++ cs2). split_and!.
    + by rewrite Hc2, Hc1, app_assoc.
    + simpl. by rewrite map_app, Hm1, Hm2.
    + by apply Forall_app.
Qed.

Lemma invoke_run (conv : ComponentConverter) (state : State) (id : InstanceID)
    (config : option ComponentConfig) (w : World) :
  invoke conv state id config w
  = Done ((ConvertAndAppend conv state id config (file w)).2,
          {| file := (ConvertAndAppend conv state id config (file w)).1;
             calls := calls w ++ [{| callConv := conv; callState := state;
                                     callID := id; callConfig := config |}] |}).
Proof. unfold invoke. by destruct (ConvertAndAppend _ _ _ _ _). Qed.

Lemma convertComponent_Done c labelPrefix table extensionTable g set diags id w d w' :
  convertComponent c labelPrefix table extensionTable g set diags id w = Done (d, w') ->
  exists cs, calls w' = calls w ++ cs
             /\ map callID cs = [NewInstanceID id (setKind set)]
             /\ Forall (consistent table) cs.
Proof.
  unfold convertComponent.
  destruct (table !! _) as [conv|] eqn:Hlook; [|done].
  unfold bindM. rewrite invoke_run. unfold retM. intros [= <- <-].
  eexists [_]. split_and!; [done | done |].
  apply Forall_singleton. exact Hlook.
Qed.

Lemma convertSet_Done c labelPrefix table extensionTable g diags set w d w' :
  convertSet c labelPrefix table extensionTable g diags set w = Done (d, w') ->
  exists cs, calls w' = calls w ++ cs
             /\ map callID cs = instancesOf (setKind set) (setIDs set)
             /\ Forall (consistent table) cs.
Proof.
  unfold convertSet. intros Hrun.
  eapply (foldM_calls _ (fun id => [NewInstanceID id (setKind set)])) in Hrun.
  - destruct Hrun as (cs & ? & Hm & ?). exists cs.
    by rewrite flat_map_singleton in Hm.
  - intros. by eapply convertComponent_Done.
Qed.

Lemma convertGroup_Done c labelPrefix table extensionTable connectorIDs diags g w d w' :
  convertGroup c labelPrefix table extensionTable connectorIDs diags g w = Done (d, w') ->
  exists cs, calls w' = calls w ++ cs
             /\ map callID cs = groupPlan connectorIDs g
             /\ Forall (consistent table) cs.
Proof.
  unfold convertGroup. intros Hrun.
  eapply (foldM_calls _ (fun set => instancesOf (setKind set) (setIDs set))) in Hrun.
  - destruct Hrun as (cs & ? & Hm & ?). exists cs. split_and!; [done | | done].
    rewrite Hm. simpl. unfold groupPlan. by rewrite app_nil_r.
  - intros. by eapply convertSet_Done.
Qed.

Lemma convertExtension_Done c labelPrefix table acc ext w acc' w' :
  convertExtension c labelPrefix table acc ext w = Done (acc', w') ->
  exists cs, calls w' = calls w ++ cs
             /\ map callID cs = [NewInstanceID ext KindExtension]
             /\ Forall (consistent table) cs.
Proof.
  unfold convertExtension. destruct acc as [diags extensionTable].
  destruct (table !! _) as [conv|] eqn:Hlook; [|done].
  unfold bindM. rewrite invoke_run. unfold retM. intros [= <- <-].
  eexists [_]. split_and!; [done | done |].
  apply Forall_singleton. exact Hlook.
Qed.

(** A run of [AppendConfig] that returns either stopped at the
    duplicate-receiver gate, with the file and the trace untouched, or
    dispatched the whole plan. *)
Lemma AppendConfig_Done keys c labelPrefix extraConverters groups w d w' :
  createPipelineGroups (service.Pipelines (otelcol.Service c)) = inr groups ->
  AppendConfig keys c labelPrefix extraConverters w = Done (d, w') ->
  let connectorIDs := keys (otelcol.Connectors c) in
  (validateNoDuplicateReceivers groups connectorIDs <> []
   /\ d = validateNoDuplicateReceivers groups connectorIDs /\ w' = w)
  \/ (validateNoDuplicateReceivers groups connectorIDs = []
      /\ exists cs, calls w' = calls w ++ cs
           /\ map callID cs
              = dispatchPlan (service.Extensions (otelcol.Service c)) connectorIDs groups
           /\ Forall (consistent (buildConverterTable extraConverters)) cs).
Proof.
  intros Hgroups. unfold AppendConfig. rewrite Hgroups. cbv zeta.
  destruct (validateNoDuplicateReceivers groups _) as [|d0 ds] eqn:Hval.
  - simpl. intros Hrun. right. split; [done|].
    unfold bindM in Hrun.
    destruct (foldM (convertExtension _ _ _) _ _ w) as [[[d1 et] w1]|] eqn:Hext; [|done].
    destruct (foldM (convertGroup _ _ _ _ _) _ _ w1) as [[d2 w2]|] eqn:Hgrp; [|done].
    unfold retM in Hrun. injection Hrun as <- <-.
    eapply (foldM_calls _ (fun e => [NewInstanceID e KindExtension])) in Hext;
      [|intros; by eapply convertExtension_Done].
    eapply (foldM_calls _ (groupPlan _)) in Hgrp;
      [|intros; by eapply convertGroup_Done].
    destruct Hext as (cs1 & Hc1 & Hm1 & HP1). destruct Hgrp as (cs2 & Hc2 & Hm2 & HP2).
    exists (cs1 ++ cs2). split_and!.
    + by rewrite Hc2, Hc1, app_assoc.
    + rewrite map_app, Hm1, Hm2, flat_map_singleton. done.
    + by apply Forall_app.
  - simpl. unfold retM. intros [= <- <-]. left. done.
Qed.

(** ** the duplicate-receiver validator *)

Lemma repeats_app (seen : gset ID) (l1 l2 : list ID) :
  repeats seen (l1 ++ l2)
  = repeats seen l1 ++ repeats (list_to_set l1 ∪ seen) l2.
Proof.
  revert seen. induction l1 as [|x l1 IH]; intros seen; simpl.
  - by rewrite (left_id_L ∅ (∪)).
  - rewrite IH, <- app_assoc. do 3 f_equal. set_solver.
Qed.

Lemma elem_of_repeats_later (seen : gset ID) (l1 l2 : list ID) (x : ID) :
  x ∈ l1 \/ x ∈ seen -> x ∈ repeats seen (l1 ++ x :: l2).
Proof.
  intros Hx. rewrite repeats_app. apply elem_of_app. right. simpl.
  rewrite decide_True; [by left|]. set_solver.
Qed.

Lemma repeats_subseteq (seen : gset ID) (l : list ID) (x : ID) :
  x ∈ repeats seen l -> x ∈ l.
Proof.
  revert seen. induction l as [|y l IH]; intros seen; simpl; [done|].
  rewrite elem_of_app. intros [Hy|Hl].
  - destruct (decide (y ∈ seen)); [|by apply not_elem_of_nil in Hy].
    apply list_elem_of_singleton in Hy as ->. by left.
  - right. by eapply IH.
Qed.

(** Every element is either a first occurrence or a repeat. *)
Lemma repeats_length (seen : gset ID) (l : list ID) :
  length (repeats seen l) + size (list_to_set l ∪ seen)
  = length l + size seen.
Proof.
  revert seen. induction l as [|x l IH]; intros seen; simpl.
  - by rewrite (left_id_L ∅ (∪)).
  - rewrite length_app.
    replace ({[x]} ∪ list_to_set l ∪ seen) with (list_to_set l ∪ ({[x]} ∪ seen))
      by set_solver.
    specialize (IH ({[x]} ∪ seen)).
    destruct (decide (x ∈ seen)) as [Hin|Hout]; simpl.
    + replace ({[x]} ∪ seen) with seen in * by set_solver. lia.
    + assert (size ({[x]} ∪ seen) = S (size seen)) as Hsize.
      { rewrite size_union by set_solver. by rewrite size_singleton. }
      lia.
Qed.

Lemma checkReceivers_fold (l : list ID) (diags : Diagnostics) (used : gset ID) :
  foldl checkReceiver (diags, used) l
  = (diags ++ map (fun r => critical (duplicateReceiverMessage r)) (repeats used l),
     list_to_set l ∪ used).
Proof.
  revert diags used. induction l as [|x l IH]; intros diags used; cbn [foldl].
  - simpl. by rewrite app_nil_r, (left_id_L ∅ (∪)).
  - unfold checkReceiver at 2. rewrite IH. simpl. f_equal.
    + destruct (decide (x ∈ used)); simpl; [|done].
      unfold Add. by rewrite <- app_assoc.
    + set_solver.
Qed.

Lemma checkGroups_fold (connectorIDs : list ID) (groups : list pipelineGroup)
    (diags : Diagnostics) (used : gset ID) :
  foldl (checkGroup connectorIDs) (diags, used) groups
  = (diags ++ map (fun r => critical (duplicateReceiverMessage r))
                  (repeats used (plainReceivers groups connectorIDs)),
     list_to_set (plainReceivers groups connectorIDs) ∪ used).
Proof.
  revert diags used. induction groups as [|g groups IH]; intros diags used;
    cbn [foldl].
  - simpl. by rewrite app_nil_r, (left_id_L ∅ (∪)).
  - unfold checkGroup at 2. rewrite checkReceivers_fold, IH.
    unfold plainReceivers. simpl. rewrite repeats_app, map_app, <- app_assoc.
    f_equal. rewrite list_to_set_app_L. set_solver.
Qed.

(** The validator reports the repeats of the flattened receiver lists. *)
Lemma validateNoDuplicateReceivers_repeats (groups : list pipelineGroup)
    (connectorIDs : list ID) :
  validateNoDuplicateReceivers groups connectorIDs
  = map (fun r => critical (duplicateReceiverMessage r))
        (repeats ∅ (plainReceivers groups connectorIDs)).
Proof. unfold validateNoDuplicateReceivers. by rewrite checkGroups_fold. Qed.

Lemma plainReceivers_split (groups : list pipelineGroup) (connectorIDs : list ID)
    (i j : nat) (g1 g2 : pipelineGroup) (r : ID) :
  groups !! i = Some g1 -> groups !! j = Some g2 -> i < j ->
  r ∈ Receivers g1 -> r ∈ Receivers g2 -> r ∉ connectorIDs ->
  exists l1 l2, plainReceivers groups connectorIDs = l1 ++ r :: l2 /\ r ∈ l1.
Proof.
  intros Hi Hj Hlt Hr1 Hr2 Hconn.
  assert (Hf2 : r ∈ filterIDs (Receivers g2) connectorIDs)
    by by apply elem_of_filterIDs.
  apply list_elem_of_split in Hf2 as (a & b & Hab).
  rewrite <- (take_drop_middle groups j g2 Hj).
  unfold plainReceivers. rewrite flat_map_app. simpl. rewrite Hab.
  exists (flat_map (fun g => filterIDs (Receivers g) connectorIDs) (take j groups) ++ a),
         (b ++ flat_map (fun g => filterIDs (Receivers g) connectorIDs) (drop (S j) groups)).
  split; [by rewrite <- !app_assoc|].
  apply elem_of_app. left. apply list_elem_of_In, in_flat_map.
  exists g1. split.
  - apply list_elem_of_In, list_elem_of_lookup. exists i. by rewrite lookup_take_lt.
  - apply list_elem_of_In. by apply elem_of_filterIDs.
Qed.

Lemma validKeys_elem_of (keys : KeysOracle) (m : gmap ID ComponentConfig) (r : ID) :
  validKeys keys -> (r ∈ keys m <-> is_Some (m !! r)).
Proof. intros Hk. rewrite (Hk m), elem_of_elements. apply elem_of_dom. Qed.

Lemma validKeys_NoDup (keys : KeysOracle) (m : gmap ID ComponentConfig) :
  validKeys keys -> NoDup (keys m).
Proof. intros Hk. rewrite (Hk m). apply NoDup_elements. Qed.

Lemma duplicate_reported (keys : KeysOracle) (c : otelcol.Config)
    (groups : list pipelineGroup) (i j : nat) (g1 g2 : pipelineGroup) (r : ID) :
  validKeys keys ->
  groups !! i = Some g1 -> groups !! j = Some g2 -> i <> j ->
  r ∈ Receivers g1 -> r ∈ Receivers g2 -> otelcol.Connectors c !! r = None ->
  critical (duplicateReceiverMessage r)
    ∈ validateNoDuplicateReceivers groups (keys (otelcol.Connectors c)).
Proof.
  intros Hk Hi Hj Hne Hr1 Hr2 Hconn.
  assert (Hnot : r ∉ keys (otelcol.Connectors c)).
  { rewrite validKeys_elem_of by done. rewrite Hconn. by intros [? ?]. }
  rewrite validateNoDuplicateReceivers_repeats.
  apply (list_elem_of_fmap_2 (fun r => critical (duplicateReceiverMessage r))).
  destruct (decide (i < j)) as [Hlt|Hge].
  - destruct (plainReceivers_split groups (keys (otelcol.Connectors c)) i j g1 g2 r)
      as (l1 & l2 & -> & Hin);
      try done.
    apply elem_of_repeats_later. by left.
  - destruct (plainReceivers_split groups (keys (otelcol.Connectors c)) j i g2 g1 r)
      as (l1 & l2 & -> & Hin);
      try done; [lia|].
    apply elem_of_repeats_later. by left.
Qed.

Lemma validateNoDuplicateReceivers_critical (groups : list pipelineGroup)
    (connectorIDs : list ID) :
  Forall (fun d => DiagSeverity d = SeverityLevelCritical)
         (validateNoDuplicateReceivers groups connectorIDs).
Proof.
  rewrite validateNoDuplicateReceivers_repeats. apply Forall_fmap.
  by apply Forall_forall.
Qed.

(** When the validator reports anything, [AppendConfig] returns its
    diagnostics and leaves the file and the trace as they were. *)
Lemma AppendConfig_gate keys c labelPrefix extraConverters groups w :
  createPipelineGroups (service.Pipelines (otelcol.Service c)) = inr groups ->
  validateNoDuplicateReceivers groups (keys (otelcol.Connectors c)) <> [] ->
  AppendConfig keys c labelPrefix extraConverters w
  = Done (validateNoDuplicateReceivers groups (keys (otelcol.Connectors c)), w).
Proof.
  intros Hgroups Hval. unfold AppendConfig. rewrite Hgroups. cbv zeta.
  destruct (validateNoDuplicateReceivers groups _) as [|d ds]; [done|].
  reflexivity.
Qed.

(** ** the registry: connectors and overrides *)

(** C9: a converter whose factory is a connector factory declares the three
    keys (connector, type), (exporter, type) and (receiver, type); under
    each of them the table holds the first converter of the combined
    override-then-built-in list that declares the key, which is the
    connector's converter itself when no other converter declares it. *)
Theorem connector_registered_under_three_keys
    (extraConverters : list ComponentConverter) (conv : ComponentConverter)
    (kind : Kind) :
  conv ∈ extraConverters ++ converters ->
  factShape (ConvFactory conv) = ConnectorFactory ->
  kind ∈ [KindConnector; KindExporter; KindReceiver] ->
  let key := {| keyKind := kind; keyType := factType (ConvFactory conv) |} in
  declares key conv
  /\ (exists i winner,
        list_find (declares key) (extraConverters ++ converters) = Some (i, winner)
        /\ buildConverterTable extraConverters !! key = Some winner)
  /\ ((forall c', c' ∈ extraConverters ++ converters -> declares key c' -> c' = conv) ->
      buildConverterTable extraConverters !! key = Some conv).
Proof.
  intros Hin Hshape Hkind key.
  assert (Hdecl : declares key conv).
  { unfold declares, factoryKinds. rewrite Hshape. by split. }
  assert (Hfind : is_Some (list_find (declares key) (extraConverters ++ converters))).
  { apply list_find_elem_of with conv; done. }
  destruct Hfind as [[i winner] Hfind].
  split_and!; [done | |].
  - exists i, winner. split; [done|].
    by rewrite buildConverterTable_lookup, Hfind.
  - intros Honly. rewrite buildConverterTable_lookup, Hfind. simpl.
    apply list_find_Some in Hfind as (Hi & Hw & _).
    f_equal. apply Honly; [|done].
    apply list_elem_of_lookup. by exists i.
Qed.

(** Every call [AppendConfig] adds to the trace uses the converter the
    table holds for the key of the dispatched instance. *)
Lemma AppendConfig_calls_consistent keys c labelPrefix extraConverters w d w' :
  AppendConfig keys c labelPrefix extraConverters w = Done (d, w') ->
  exists cs, calls w' = calls w ++ cs
             /\ Forall (consistent (buildConverterTable extraConverters)) cs.
Proof.
  intros Hrun.
  destruct (createPipelineGroups (service.Pipelines (otelcol.Service c)))
    as [err|groups] eqn:Hgroups.
  - unfold AppendConfig in Hrun. rewrite Hgroups in Hrun.
    unfold retM in Hrun. injection Hrun as <- <-.
    exists []. by rewrite app_nil_r.
  - destruct (AppendConfig_Done _ _ _ _ _ _ _ _ Hgroups Hrun)
      as [(_ & _ & ->)|(_ & cs & Hc & _ & HP)].
    + exists []. by rewrite app_nil_r.
    + by exists cs.
Qed.


(** ** Convert: failures of reading and validation *)

Lemma readOpentelemetryConfig_provider_error (in_ : list byte) (err : string) :
  NewConfigProvider ["yaml:" +:+ string_of_list_byte in_] = inl err ->
  readOpentelemetryConfig in_
  = Done (inl ("failed to create otelcol config provider: " +:+ err)).
Proof. intros Hp. unfold readOpentelemetryConfig. by rewrite Hp. Qed.

Lemma readOpentelemetryConfig_get_error (in_ : list byte) provider factories
    (err : string) :
  NewConfigProvider ["yaml:" +:+ string_of_list_byte in_] = inr provider ->
  getFactories = Done factories ->
  ProviderGet provider factories = inl err ->
  readOpentelemetryConfig in_ = Done (inl ("failed to get otelcol config: " +:+ err)).
Proof.
  intros Hp Hf Hg. unfold readOpentelemetryConfig. rewrite Hp, Hf. simpl.
  by rewrite Hg.
Qed.

(** C7: when reading the input fails with an error, or the configuration
    read fails validation, [Convert] (called without extra arguments, so
    that the input is read at all) returns nil bytes and exactly one
    diagnostic, critical, carrying the error. *)
Theorem Convert_read_or_validate_failure (keys : KeysOracle) (in_ : list byte)
    (msg : string) :
  (readOpentelemetryConfig in_ = Done (inl msg)
   \/ exists c err, readOpentelemetryConfig in_ = Done (inr c)
        /\ Validate c = Some err
        /\ msg = "failed to validate config: " +:+ err) ->
  Convert keys in_ [] = Done (None, [critical msg]).
Proof.
  intros [Hread|(c & err & Hread & Hval & ->)]; unfold Convert; simpl;
    rewrite Hread; simpl; [done|].
  by rewrite Hval.
Qed.

(** ** rejection of duplicate receivers *)

(** When [AppendConfig] leaves the fresh file untouched and an untouched
    file renders to no bytes, [Convert] returns nil bytes and every
    diagnostic of [AppendConfig]. *)
Lemma Convert_nothing_appended (keys : KeysOracle) (in_ : list byte)
    (c : otelcol.Config) (appended : Diagnostics) :
  readOpentelemetryConfig in_ = Done (inr c) ->
  Validate c = None ->
  AppendConfig keys c "" [] {| file := NewFile; calls := [] |}
  = Done (appended, {| file := NewFile; calls := [] |}) ->
  (forall buf, WriteTo NewFile = inr buf -> buf = []) ->
  exists diags, Convert keys in_ [] = Done (None, diags)
                /\ forall d, d ∈ appended -> d ∈ diags.
Proof.
  intros Hread Hval Hrun Hempty. unfold Convert. simpl.
  rewrite Hread. simpl. rewrite Hval, Hrun. simpl.
  destruct (WriteTo NewFile) as [err|buf] eqn:Hw.
  - eexists. split; [done|]. intros d Hd. unfold Add, AddAll. simpl.
    rewrite !elem_of_app. auto.
  - rewrite (Hempty buf eq_refl). simpl.
    eexists. split; [done|]. intros d Hd. unfold AddAll. simpl.
    rewrite elem_of_app. auto.
Qed.

(** C2: when a receiver that is not a connector is in the receiver lists of
    two different groups, [AppendConfig] returns only critical diagnostics,
    one of them naming that receiver, and leaves the file and the trace as
    they were: no strategy ran, nothing was appended.  [Convert] on an
    input read as this configuration then returns nil bytes with that
    diagnostic, an untouched file rendering to no bytes. *)
Theorem duplicate_receiver_rejected (keys : KeysOracle) (c : otelcol.Config)
    (labelPrefix : string) (extraConverters : list ComponentConverter)
    (groups : list pipelineGroup) (i j : nat) (g1 g2 : pipelineGroup) (r : ID)
    (w : World) :
  validKeys keys ->
  createPipelineGroups (service.Pipelines (otelcol.Service c)) = inr groups ->
  groups !! i = Some g1 -> groups !! j = Some g2 -> i <> j ->
  r ∈ Receivers g1 -> r ∈ Receivers g2 ->
  otelcol.Connectors c !! r = None ->
  (exists diags,
     AppendConfig keys c labelPrefix extraConverters w = Done (diags, w)
     /\ critical (duplicateReceiverMessage r) ∈ diags
     /\ Forall (fun d => DiagSeverity d = SeverityLevelCritical) diags)
  /\ (forall in_,
        readOpentelemetryConfig in_ = Done (inr c) ->
        Validate c = None ->
        (forall buf, WriteTo NewFile = inr buf -> buf = []) ->
        exists diags, Convert keys in_ [] = Done (None, diags)
                      /\ critical (duplicateReceiverMessage r) ∈ diags).
Proof.
  intros Hk Hgroups Hi Hj Hne Hr1 Hr2 Hconn.
  pose proof (duplicate_reported keys c groups i j g1 g2 r Hk Hi Hj Hne Hr1 Hr2 Hconn)
    as Hdup.
  assert (Hnonempty :
    validateNoDuplicateReceivers groups (keys (otelcol.Connectors c)) <> []).
  { intros Hnil. rewrite Hnil in Hdup. by apply not_elem_of_nil in Hdup. }
  split.
  - eexists. split_and!.
    + by apply AppendConfig_gate.
    + done.
    + apply validateNoDuplicateReceivers_critical.
  - intros in_ Hread Hval Hempty.
    destruct (Convert_nothing_appended keys in_ c _ Hread Hval
                (AppendConfig_gate keys c "" [] groups _ Hgroups Hnonempty) Hempty)
      as (diags & Hconv & Hsub).
    exists diags. split; [done|]. by apply Hsub.
Qed.

(** C6, as the code has it: the validator walks through all the groups and
    reports every repeated occurrence of a receiver that is not a
    connector, in order, each with a critical diagnostic naming it; there
    are as many diagnostics as occurrences beyond the first ones.  When
    there is at least one, [AppendConfig] returns exactly these diagnostics
    and leaves the file and the trace as they were. *)
Theorem validator_reports_every_repeat (groups : list pipelineGroup)
    (connectorIDs : list ID) :
  let walked := plainReceivers groups connectorIDs in
  validateNoDuplicateReceivers groups connectorIDs
  = map (fun r => critical (duplicateReceiverMessage r)) (repeats ∅ walked)
  /\ length (validateNoDuplicateReceivers groups connectorIDs)
     + size (list_to_set walked : gset ID) = length walked
  /\ (forall r, r ∈ repeats ∅ walked -> r ∈ walked /\ r ∉ connectorIDs)
  /\ (forall keys c labelPrefix extraConverters w,
        createPipelineGroups (service.Pipelines (otelcol.Service c)) = inr groups ->
        keys (otelcol.Connectors c) = connectorIDs ->
        validateNoDuplicateReceivers groups connectorIDs <> [] ->
        AppendConfig keys c labelPrefix extraConverters w
        = Done (validateNoDuplicateReceivers groups connectorIDs, w)).
Proof.
  intros walked. split_and!.
  - apply validateNoDuplicateReceivers_repeats.
  - rewrite validateNoDuplicateReceivers_repeats, length_map.
    pose proof (repeats_length ∅ walked) as Hlen.
    rewrite (right_id_L ∅ (∪)), size_empty in Hlen. unfold walked in *. lia.
  - intros r Hr. apply repeats_subseteq in Hr. split; [done|].
    unfold walked, plainReceivers in Hr.
    apply list_elem_of_In, in_flat_map in Hr as (g & _ & Hg).
    apply list_elem_of_In, elem_of_filterIDs in Hg. tauto.
  - intros keys c labelPrefix extraConverters w Hgroups <- Hval.
    by apply AppendConfig_gate.
Qed.

(** ** critical diagnostics and the output *)

Lemma hasCritical_app (d1 d2 : Diagnostics) :
  hasCritical (d1 ++ d2) = hasCritical d1 || hasCritical d2.
Proof. apply existsb_app. Qed.

(** A loop in [M] keeps what its body keeps of the accumulator. *)
Lemma foldM_acc {A B} (Q : A -> Prop) (f : A -> B -> M A) :
  (forall a x w a' w', Q a -> f a x w = Done (a', w') -> Q a') ->
  forall l a w a' w', Q a -> foldM f a l w = Done (a', w') -> Q a'.
Proof.
  intros Hf. induction l as [|x l IH]; intros a w a' w' Ha Hrun; simpl in Hrun.
  - by injection Hrun as <- <-.
  - unfold bindM in Hrun. destruct (f a x w) as [[a1 w1]|] eqn:Hstep; [|done].
    eapply IH; [|exact Hrun]. by eapply Hf.
Qed.

Section NoCriticalStrategies.

Hypothesis strategies_not_critical :
  forall conv state id config f,
    hasCritical (ConvertAndAppend conv state id config f).2 = false.

Lemma convertComponent_not_critical c labelPrefix table extensionTable g set diags id w d w' :
  hasCritical diags = false ->
  convertComponent c labelPrefix table extensionTable g set diags id w = Done (d, w') ->
  hasCritical d = false.
Proof.
  intros Hd. unfold convertComponent.
  destruct (table !! _) as [conv|]; [|done].
  unfold bindM. rewrite invoke_run. unfold retM, AddAll. intros [= <- <-].
  by rewrite hasCritical_app, Hd, strategies_not_critical.
Qed.

Lemma convertGroup_not_critical c labelPrefix table extensionTable connectorIDs diags g w d w' :
  hasCritical diags = false ->
  convertGroup c labelPrefix table extensionTable connectorIDs diags g w = Done (d, w') ->
  hasCritical d = false.
Proof.
  unfold convertGroup. intros Hd Hrun.
  eapply (foldM_acc (fun d => hasCritical d = false)); [|exact Hd|exact Hrun].
  intros a set w0 a' w0' Ha Hset. unfold convertSet in Hset.
  eapply (foldM_acc (fun d => hasCritical d = false)); [|exact Ha|exact Hset].
  intros. by eapply convertComponent_not_critical.
Qed.

Lemma convertExtension_not_critical c labelPrefix table acc ext w acc' w' :
  hasCritical acc.1 = false ->
  convertExtension c labelPrefix table acc ext w = Done (acc', w') ->
  hasCritical acc'.1 = false.
Proof.
  destruct acc as [diags extensionTable]. simpl. intros Hd.
  unfold convertExtension.
  destruct (table !! _) as [conv|]; [|done].
  unfold bindM. rewrite invoke_run. unfold retM, AddAll. intros [= <- <-]. simpl.
  by rewrite hasCritical_app, Hd, strategies_not_critical.
Qed.

(** A run of [AppendConfig] either left the file and the trace as they
    were or returns no critical diagnostic. *)
Lemma AppendConfig_critical_origin keys c labelPrefix extraConverters w d w' :
  AppendConfig keys c labelPrefix extraConverters w = Done (d, w') ->
  w' = w \/ hasCritical d = false.
Proof.
  unfold AppendConfig.
  destruct (createPipelineGroups _) as [err|groups].
  { unfold retM. intros [= <- <-]. by left. }
  cbv zeta.
  destruct (validateNoDuplicateReceivers groups _) as [|d0 ds]; simpl.
  - intros Hrun. right. unfold bindM in Hrun.
    destruct (foldM (convertExtension _ _ _) _ _ w) as [[[d1 et] w1]|] eqn:Hext; [|done].
    destruct (foldM (convertGroup _ _ _ _ _) _ _ w1) as [[d2 w2]|] eqn:Hgrp; [|done].
    unfold retM in Hrun. injection Hrun as <- <-.
    eapply (foldM_acc (fun d => hasCritical d = false)); [| |exact Hgrp].
    + intros. by eapply convertGroup_not_critical.
    + eapply (foldM_acc (fun acc => hasCritical acc.1 = false)) in Hext; [done| |done].
      intros. by eapply convertExtension_not_critical.
  - unfold retM. intros [= <- <-]. by left.
Qed.

End NoCriticalStrategies.


(** ** determinism *)

Lemma validKeys_small (keys1 keys2 : KeysOracle) (m : gmap ID ComponentConfig) :
  validKeys keys1 -> validKeys keys2 -> size m <= 1 -> keys1 m = keys2 m.
Proof.
  intros H1 H2 Hsize.
  assert (Hlen : length (elements (dom m)) <= 1).
  { change (size (dom m) <= 1). by rewrite size_dom. }
  specialize (H1 m). specialize (H2 m).
  destruct (elements (dom m)) as [|x [|y l]]; simpl in Hlen; [| |lia].
  - apply Permutation_nil_r in H1, H2. congruence.
  - apply Permutation_singleton_r in H1, H2. congruence.
Qed.


(** ** how often an instance is dispatched *)

Lemma occurrences_app (i : InstanceID) (l1 l2 : list InstanceID) :
  occurrences i (l1 ++ l2) = occurrences i l1 + occurrences i l2.
Proof. unfold occurrences. by rewrite filter_app, length_app. Qed.

Lemma occurrences_other_kind (i : InstanceID) (kind : Kind) (ids : list ID) :
  InstanceKind i <> kind -> occurrences i (instancesOf kind ids) = 0.
Proof.
  intros Hkind. unfold occurrences, instancesOf.
  induction ids as [|x ids IH]; simpl; [done|].
  rewrite filter_cons_False; [done|]. intros <-. by apply Hkind.
Qed.

Lemma occurrences_same_kind (id : ID) (kind : Kind) (ids : list ID) :
  occurrences (NewInstanceID id kind) (instancesOf kind ids)
  = length (filter (fun x => x = id) ids).
Proof.
  unfold occurrences, instancesOf.
  induction ids as [|x ids IH]; simpl; [done|].
  destruct (decide (x = id)) as [->|Hne].
  - rewrite !filter_cons_True by done. simpl. by rewrite IH.
  - rewrite !filter_cons_False; [done | done |].
    unfold NewInstanceID. intros [= ?]. by apply Hne.
Qed.

Lemma NoDup_occurs_once (id : ID) (ids : list ID) :
  NoDup ids -> length (filter (fun x => x = id) ids) = if decide (id ∈ ids) then 1 else 0.
Proof.
  induction 1 as [|x ids Hx Hnd IH].
  - rewrite decide_False; [done | apply not_elem_of_nil].
  - destruct (decide (x = id)) as [->|Hne].
    + rewrite filter_cons_True by done. simpl. rewrite IH.
      rewrite decide_False by done. rewrite decide_True; [done | by left].
    + rewrite filter_cons_False by done. rewrite IH.
      apply decide_ext. rewrite elem_of_cons. split; [tauto|].
      intros [Heq|?]; [|done]. by destruct Hne.
Qed.

Lemma repeats_nil_NoDup (seen : gset ID) (l : list ID) :
  repeats seen l = [] -> NoDup l /\ forall y, y ∈ l -> y ∉ seen.
Proof.
  revert seen. induction l as [|x l IH]; intros seen; simpl.
  - intros _. split; [constructor|]. intros y Hy. by apply not_elem_of_nil in Hy.
  - destruct (decide (x ∈ seen)) as [Hin|Hout]; simpl; [done|].
    intros Hrep. destruct (IH _ Hrep) as [Hnd Hfresh]. split.
    + constructor; [|done]. intros Hx. apply (Hfresh x Hx). set_solver.
    + intros y [->|Hy]%elem_of_cons; [done|].
      intros Hseen. apply (Hfresh y Hy). set_solver.
Qed.

Lemma connector_occurrences_groups (connectorIDs : list ID)
    (groups : list pipelineGroup) (id : ID) :
  NoDup connectorIDs -> id ∈ connectorIDs ->
  occurrences (NewInstanceID id KindConnector)
              (flat_map (groupPlan connectorIDs) groups)
  = length groups.
Proof.
  intros Hnd Hin. induction groups as [|g groups IH]; simpl; [done|].
  rewrite occurrences_app, IH. f_equal.
  unfold groupPlan. rewrite !occurrences_app.
  rewrite !occurrences_other_kind by done.
  rewrite occurrences_same_kind, NoDup_occurs_once by done.
  by rewrite decide_True.
Qed.

Lemma receiver_occurrences_groups (connectorIDs : list ID)
    (groups : list pipelineGroup) (id : ID) :
  occurrences (NewInstanceID id KindReceiver)
              (flat_map (groupPlan connectorIDs) groups)
  = length (filter (fun x => x = id) (plainReceivers groups connectorIDs)).
Proof.
  induction groups as [|g groups IH]; simpl; [done|].
  rewrite occurrences_app, IH. unfold plainReceivers. simpl.
  rewrite filter_app, length_app. f_equal.
  unfold groupPlan. rewrite !occurrences_app.
  rewrite (occurrences_other_kind _ KindProcessor) by done.
  rewrite (occurrences_other_kind _ KindExporter) by done.
  rewrite (occurrences_other_kind _ KindConnector) by done.
  rewrite occurrences_same_kind. lia.
Qed.

(** C1, as the code has it: a run of [AppendConfig] that passes the
    duplicate-receiver gate and returns has invoked the strategies for
    exactly the instances of the dispatch plan, in order: the listed
    extensions; then, group after group, the group's receivers and
    exporters that are not connectors, its processors, and every connector
    of the configuration.  A receiver identity is invoked at most once; a
    connector identity is invoked once for every pipeline group, so as
    often as there are groups. *)
Theorem connector_dispatched_once_per_group (keys : KeysOracle)
    (c : otelcol.Config) (labelPrefix : string)
    (extraConverters : list ComponentConverter) (groups : list pipelineGroup)
    (w : World) (d : Diagnostics) (w' : World) :
  validKeys keys ->
  createPipelineGroups (service.Pipelines (otelcol.Service c)) = inr groups ->
  validateNoDuplicateReceivers groups (keys (otelcol.Connectors c)) = [] ->
  AppendConfig keys c labelPrefix extraConverters w = Done (d, w') ->
  exists cs,
    calls w' = calls w ++ cs
    /\ map callID cs
       = dispatchPlan (service.Extensions (otelcol.Service c))
                      (keys (otelcol.Connectors c)) groups
    /\ (forall id, occurrences (NewInstanceID id KindReceiver) (map callID cs) <= 1)
    /\ (forall id, is_Some (otelcol.Connectors c !! id) ->
          occurrences (NewInstanceID id KindConnector) (map callID cs)
          = length groups).
Proof.
  intros Hk Hgroups Hval Hrun.
  destruct (AppendConfig_Done _ _ _ _ _ _ _ _ Hgroups Hrun)
    as [(Hne & _)|(_ & cs & Hc & Hm & _)]; [done|].
  exists cs. split_and!; [done | done | |].
  - intros id. rewrite Hm. unfold dispatchPlan.
    rewrite occurrences_app, occurrences_other_kind by done.
    rewrite receiver_occurrences_groups. simpl.
    rewrite validateNoDuplicateReceivers_repeats in Hval.
    apply fmap_nil_inv, repeats_nil_NoDup in Hval as [Hnd _].
    rewrite (NoDup_occurs_once id _ Hnd). case_decide; lia.
  - intros id Hid. rewrite Hm. unfold dispatchPlan.
    rewrite occurrences_app, occurrences_other_kind by done. simpl.
    apply connector_occurrences_groups.
    + by apply validKeys_NoDup.
    + by apply validKeys_elem_of.
Qed.

(** ** program-fatal conditions *)

Lemma convertComponent_miss c labelPrefix table extensionTable g set diags id w :
  table !! {| keyKind := setKind set; keyType := typeVal id |} = None ->
  convertComponent c labelPrefix table extensionTable g set diags id w
  = Panicked (NoConverterFound {| keyKind := setKind set; keyType := typeVal id |}).
Proof. intros Hmiss. unfold convertComponent. by rewrite Hmiss. Qed.

Lemma convertExtension_miss c labelPrefix table acc ext w :
  table !! {| keyKind := KindExtension; keyType := typeVal ext |} = None ->
  convertExtension c labelPrefix table acc ext w
  = Panicked (NoConverterFound {| keyKind := KindExtension; keyType := typeVal ext |}).
Proof. intros Hmiss. unfold convertExtension. destruct acc. by rewrite Hmiss. Qed.

Lemma foldOutcome_app {A B} (f : A -> B -> Outcome A) (a : A) (l1 l2 : list B) :
  foldOutcome f a (l1 ++ l2)
  = bindOutcome (foldOutcome f a l1) (fun a' => foldOutcome f a' l2).
Proof.
  revert a. induction l1 as [|x l1 IH]; intros a; simpl; [done|].
  destruct (f a x); simpl; [apply IH | done].
Qed.

Lemma addFactory_known (facts : otelcol.Factories) (conv : ComponentConverter) :
  factShape (ConvFactory conv) <> OtherFactory ->
  exists facts', addFactory facts conv = Done facts'.
Proof. unfold addFactory. destruct (factShape _); intros ?; by eauto. Qed.

(** C8: a lookup miss during dispatch panics, in the extension phase and in
    the group phase, and [getFactories] panics at the first built-in
    converter whose factory has an unknown shape; [buildConverterTable],
    which builds the registry, does not: a converter with such a factory is
    passed over and the table is the one built without it. *)
Theorem unknown_factory_shape_skipped_by_registry
    (extraConverters : list ComponentConverter) (conv : ComponentConverter) :
  factShape (ConvFactory conv) = OtherFactory ->
  buildConverterTable (conv :: extraConverters) = buildConverterTable extraConverters
  /\ (forall table, registerConverter table conv = table)
  /\ (forall facts,
        addFactory facts conv = Panicked (UnknownFactoryType (ConvFactory conv)))
  /\ (forall before after,
        converters = before ++ conv :: after ->
        Forall (fun b => factShape (ConvFactory b) <> OtherFactory) before ->
        getFactories = Panicked (UnknownFactoryType (ConvFactory conv)))
  /\ (forall c labelPrefix table extensionTable g set diags id w,
        table !! {| keyKind := setKind set; keyType := typeVal id |} = None ->
        convertComponent c labelPrefix table extensionTable g set diags id w
        = Panicked (NoConverterFound
                      {| keyKind := setKind set; keyType := typeVal id |}))
  /\ (forall c labelPrefix table acc ext w,
        table !! {| keyKind := KindExtension; keyType := typeVal ext |} = None ->
        convertExtension c labelPrefix table acc ext w
        = Panicked (NoConverterFound
                      {| keyKind := KindExtension; keyType := typeVal ext |})).
Proof.
  intros Hshape.
  assert (Hreg : forall table, registerConverter table conv = table).
  { intros table. unfold registerConverter, factoryKinds. by rewrite Hshape. }
  assert (Hadd : forall facts,
            addFactory facts conv = Panicked (UnknownFactoryType (ConvFactory conv))).
  { intros facts. unfold addFactory. by rewrite Hshape. }
  split_and!; [|done|done| | |].
  3: { intros. by apply convertComponent_miss. }
  3: { intros. by apply convertExtension_miss. }
  - unfold buildConverterTable. simpl. by rewrite Hreg.
  - intros before after Hconv Hknown. unfold getFactories. rewrite Hconv.
    rewrite foldOutcome_app.
    assert (Hbefore : forall facts, exists facts',
              foldOutcome addFactory facts before = Done facts').
    { clear Hconv. induction Hknown as [|b before Hb _ IH]; intros facts; simpl.
      - by eauto.
      - destruct (addFactory_known facts b Hb) as [facts1 ->]. simpl. apply IH. }
    destruct (Hbefore emptyFactories) as [facts' ->]. simpl. by rewrite Hadd.
Qed.

(** ** when the dispatch returns *)

(** A loop in [M] returns when its body returns at every element. *)
Lemma foldM_returns {A B} (f : A -> B -> M A) (l : list B) :
  (forall a x w, x ∈ l -> exists a' w', f a x w = Done (a', w')) ->
  forall a w, exists a' w', foldM f a l w = Done (a', w').
Proof.
  induction l as [|x l IH]; intros Hf a w; simpl.
  - by exists a, w.
  - destruct (Hf a x w) as (a1 & w1 & Hstep); [by left|].
    unfold bindM. rewrite Hstep. apply IH.
    intros a2 y w2 Hy. apply Hf. by right.
Qed.

Lemma convertSet_returns c labelPrefix table extensionTable g diags set w :
  Forall (fun i => is_Some (table !! keyOf i)) (instancesOf (setKind set) (setIDs set)) ->
  exists d w', convertSet c labelPrefix table extensionTable g diags set w = Done (d, w').
Proof.
  intros Hall. unfold convertSet. apply foldM_returns.
  intros a id w0 Hid. unfold convertComponent.
  rewrite Forall_forall in Hall.
  destruct (Hall (NewInstanceID id (setKind set))) as [conv Hconv].
  { unfold instancesOf. by apply (list_elem_of_fmap_2 (fun id => NewInstanceID id _)). }
  unfold keyOf in Hconv. simpl in Hconv. rewrite Hconv.
  unfold bindM. rewrite invoke_run. unfold retM. by eauto.
Qed.

Lemma convertGroup_returns c labelPrefix table extensionTable connectorIDs diags g w :
  Forall (fun i => is_Some (table !! keyOf i)) (groupPlan connectorIDs g) ->
  exists d w',
    convertGroup c labelPrefix table extensionTable connectorIDs diags g w = Done (d, w').
Proof.
  unfold groupPlan. rewrite !Forall_app. intros (Hr & Hp & He & Hc).
  unfold convertGroup. apply foldM_returns.
  intros a set w0 Hset. apply convertSet_returns.
  repeat (apply elem_of_cons in Hset as [->|Hset]); try done.
  by apply not_elem_of_nil in Hset.
Qed.

(** [AppendConfig] returns, without a panic, when the table has an entry
    for the key of every instance of the dispatch plan. *)
Lemma AppendConfig_returns keys c labelPrefix extraConverters groups w :
  createPipelineGroups (service.Pipelines (otelcol.Service c)) = inr groups ->
  Forall (fun i => is_Some (buildConverterTable extraConverters !! keyOf i))
         (dispatchPlan (service.Extensions (otelcol.Service c))
                       (keys (otelcol.Connectors c)) groups) ->
  exists d w', AppendConfig keys c labelPrefix extraConverters w = Done (d, w').
Proof.
  intros Hgroups. unfold dispatchPlan. rewrite Forall_app. intros [Hext Hgrp].
  unfold AppendConfig. rewrite Hgroups. cbv zeta.
  destruct (0 <? length _)%nat; [unfold retM; by eauto|].
  unfold bindM.
  destruct (foldM_returns
              (convertExtension c labelPrefix (buildConverterTable extraConverters))
              (service.Extensions (otelcol.Service c))) with (a := (@nil Diagnostic, (∅ : gmap ID componentID))) (w := w)
    as ([d1 et] & w1 & ->).
  { intros [diags et] ext w0 Hin. unfold convertExtension.
    rewrite Forall_forall in Hext.
    destruct (Hext (NewInstanceID ext KindExtension)) as [conv Hconv].
    { unfold instancesOf. by apply (list_elem_of_fmap_2 (fun id => NewInstanceID id _)). }
    unfold keyOf in Hconv. simpl in Hconv. rewrite Hconv.
    unfold bindM. rewrite invoke_run. unfold retM. by eauto. }
  destruct (foldM_returns
              (convertGroup c labelPrefix (buildConverterTable extraConverters) et
                            (keys (otelcol.Connectors c)))
              groups) with (a := d1) (w := w1) as (d2 & w2 & ->).
  { intros a g w0 Hg. apply convertGroup_returns.
    rewrite Forall_forall in Hgrp |- *. intros i Hi. apply Hgrp.
    apply list_elem_of_In, in_flat_map. exists g.
    split; by apply list_elem_of_In. }
  unfold retM. by eauto.
Qed.

(** ** filterIDs in memory *)

Lemma index_app (h fresh : Heap) (s : Slice) (i : nat) :
  sliceArray s < length h -> index (h ++ fresh) s i = index h s i.
Proof. intros Hlt. unfold index. by rewrite lookup_app_l. Qed.

Lemma contents_app (h fresh : Heap) (s : option Slice) :
  inHeap h s -> contents (h ++ fresh) s = contents h s.
Proof.
  destruct s as [s|]; [|done]. intros (a & Ha & _). simpl.
  apply map_ext. intros i. apply index_app. by eapply lookup_lt_Some.
Qed.

Lemma length_contents (h : Heap) (s : option Slice) :
  length (contents h s) = match s with None => 0 | Some s => sliceLen s end.
Proof. destruct s; simpl; [|done]. by rewrite length_map, length_seq. Qed.

Lemma map_lookup_prefix (l t : list ID) :
  map (fun i => default zeroID ((l ++ t) !! (0 + i))) (seq 0 (length l)) = l.
Proof.
  revert t. induction l as [|y l IH] using rev_ind; intros t; [done|].
  rewrite length_app. simpl. rewrite Nat.add_1_r, seq_S, map_app. simpl.
  rewrite <- app_assoc. rewrite IH. f_equal.
  change (l ++ [y] ++ t) with (l ++ y :: t).
  by rewrite (list_lookup_middle l t y (length l) eq_refl).
Qed.

Lemma appendID_fresh (grow : nat -> nat) (h0 h : Heap) (res : option Slice)
    (x : ID) :
  freshRes h0 h res ->
  exists h' res',
    appendID grow h res x = (h', res')
    /\ freshRes h0 h' res'
    /\ contents h' res' = contents h res ++ [x].
Proof.
  intros ([fresh ->] & Hin & Hfresh).
  assert (Hmoved : forall n, n = match res with None => 0 | Some s => sliceLen s end ->
    let newcap := max (S n) (grow (S n)) in
    let h' := (h0 ++ fresh)
              ++ [contents (h0 ++ fresh) res ++ x :: replicate (newcap - S n) zeroID] in
    let res' := Some {| sliceArray := length (h0 ++ fresh); sliceOffset := 0;
                        sliceLen := S n; sliceCap := newcap |} in
    freshRes h0 h' res' /\ contents h' res' = contents (h0 ++ fresh) res ++ [x]).
  { intros n Hn newcap h' res'.
    assert (Hlook : h' !! length (h0 ++ fresh)
                    = Some (contents (h0 ++ fresh) res ++ x :: replicate (newcap - S n) zeroID)).
    { unfold h'. by rewrite list_lookup_middle. }
    split.
    - split_and!.
      + exists (fresh ++ [contents (h0 ++ fresh) res ++ x :: replicate (newcap - S n) zeroID]).
        unfold h'. by rewrite <- app_assoc.
      + simpl. eexists. split; [exact Hlook|]. split; [|unfold newcap; lia].
        rewrite length_app, length_contents, <- Hn. simpl.
        rewrite length_replicate. unfold newcap. lia.
      + simpl. rewrite length_app. lia.
    - assert (HS : S n = length (contents (h0 ++ fresh) res ++ [x])).
      { rewrite length_app, length_contents, <- Hn. simpl. lia. }
      rewrite (cons_middle x), app_assoc in Hlook.
      unfold res'. cbn [contents sliceLen].
      transitivity
        (map (fun i => default zeroID
                 (((contents (h0 ++ fresh) res ++ [x])
                   ++ replicate (newcap - S n) zeroID) !! (0 + i)))
             (seq 0 (length (contents (h0 ++ fresh) res ++ [x])))).
      + rewrite <- HS. apply map_ext. intros i. unfold index.
        cbn [sliceArray sliceOffset]. by rewrite Hlook.
      + apply map_lookup_prefix. }
  unfold appendID. destruct res as [s|].
  - destruct (decide (sliceLen s < sliceCap s)) as [Hroom|Hfull].
    + destruct Hin as (a & Ha & Hcap & Hlen). simpl in Hfresh.
      eexists _, _. split; [done|].
      assert (Hlook : alter (fun a => <[sliceOffset s + sliceLen s := x]> a)
                            (sliceArray s) (h0 ++ fresh) !! sliceArray s
                      = Some (<[sliceOffset s + sliceLen s := x]> a)).
      { by rewrite list_lookup_alter_eq, Ha. }
      split.
      * split_and!.
        -- exists (alter (fun a => <[sliceOffset s + sliceLen s := x]> a)
                         (sliceArray s - length h0) fresh).
           by apply alter_app_r_alt.
        -- simpl. eexists. split; [exact Hlook|]. rewrite length_insert. lia.
        -- done.
      * cbn [contents sliceLen]. rewrite seq_S, map_app. cbn [map]. f_equal.
        -- apply map_ext_in. intros i [_ Hi]%in_seq. unfold index.
           cbn [sliceArray sliceOffset]. rewrite Hlook, Ha. cbn.
           rewrite list_lookup_insert_ne by lia. done.
        -- unfold index. cbn [sliceArray sliceOffset]. rewrite Hlook. cbn.
           rewrite list_lookup_insert_eq by lia. done.
    + eexists _, _. split; [done|]. by apply Hmoved.
  - eexists _, _. split; [done|]. by apply (Hmoved 0).
Qed.

Lemma filterSteps_fresh (grow : nat -> nat) (h0 : Heap) (sin : Slice)
    (rem : option Slice) :
  inHeap h0 (Some sin) -> inHeap h0 rem ->
  forall (idxs : list nat) (h : Heap) (res : option Slice),
    freshRes h0 h res ->
    exists h' res',
      foldl (filterStep grow sin rem) (h, res) idxs = (h', res')
      /\ freshRes h0 h' res'
      /\ contents h' res'
         = contents h res
           ++ filter (fun x => x ∉ contents h0 rem) (map (index h0 sin) idxs).
Proof.
  intros Hsin Hrem. induction idxs as [|i idxs IH]; intros h res Hinv; cbn [foldl].
  - exists h, res. by rewrite app_nil_r.
  - assert (Hset : index h sin i = index h0 sin i).
    { destruct Hinv as ([fresh ->] & _). destruct Hsin as (a & Ha & _).
      apply index_app. by eapply lookup_lt_Some. }
    assert (Hcontents : contents h rem = contents h0 rem).
    { destruct Hinv as ([fresh ->] & _). by apply contents_app. }
    unfold filterStep at 2. rewrite Hset, Hcontents, existsIn_spec. simpl.
    case_bool_decide as Hx.
    + destruct (IH h res Hinv) as (h' & res' & Hrun & Hinv' & Hc).
      exists h', res'. split_and!; [done | done |].
      rewrite Hc. by rewrite filter_cons_False by (by intros Hn).
    + destruct (appendID_fresh grow h0 h res (index h0 sin i) Hinv)
        as (h1 & res1 & -> & Hinv1 & Hc1).
      destruct (IH h1 res1 Hinv1) as (h' & res' & Hrun & Hinv' & Hc).
      exists h', res'. split_and!; [done | done |].
      rewrite Hc, Hc1, filter_cons_True by done. by rewrite <- app_assoc.
Qed.

(** On the heap, [filterIDs] only adds arrays: every array there was,
    those of [in] and [rem] among them, is as before, and the slice it
    returns holds what [filterIDs] returns on the elements of [in] and
    [rem]. *)
Lemma filterIDsOnHeap_spec (grow : nat -> nat) (h : Heap) (in_ rem : option Slice) :
  inHeap h in_ -> inHeap h rem ->
  exists fresh res,
    filterIDsOnHeap grow h in_ rem = (h ++ fresh, res)
    /\ contents (h ++ fresh) res = filterIDs (contents h in_) (contents h rem)
    /\ contents (h ++ fresh) in_ = contents h in_
    /\ contents (h ++ fresh) rem = contents h rem.
Proof.
  intros Hin Hrem. unfold filterIDsOnHeap. destruct in_ as [sin|].
  - destruct (filterSteps_fresh grow h sin rem Hin Hrem (seq 0 (sliceLen sin)) h None)
      as (h' & res' & Hrun & ([fresh ->] & _) & Hc).
    { split_and!; [|done|done]. exists []. by rewrite app_nil_r. }
    exists fresh, res'. split_and!; [done | | by apply contents_app | by apply contents_app].
    rewrite Hc. simpl. by rewrite filterIDs_filter.
  - exists [], None. rewrite app_nil_r. done.
Qed.

(** C10: [filterIDs] returns the elements of [in] that are equal to no
    element of [rem], in their order and with their repetitions; nothing
    when every element of [in] is in [rem].  In memory it writes to arrays
    it has allocated only: the arrays behind [in] and [rem] are as before. *)
Theorem filterIDs_spec (in_ rem : list ID) :
  filterIDs in_ rem = filter (fun x => x ∉ rem) in_
  /\ (forall x, x ∈ filterIDs in_ rem <-> x ∈ in_ /\ x ∉ rem)
  /\ sublist (filterIDs in_ rem) in_
  /\ (filterIDs in_ rem = [] <-> Forall (fun x => x ∈ rem) in_)
  /\ (forall grow h sin srem,
        inHeap h sin -> inHeap h srem ->
        contents h sin = in_ -> contents h srem = rem ->
        exists fresh res,
          filterIDsOnHeap grow h sin srem = (h ++ fresh, res)
          /\ contents (h ++ fresh) res = filterIDs in_ rem
          /\ contents (h ++ fresh) sin = in_
          /\ contents (h ++ fresh) srem = rem).
Proof.
  split_and!.
  - apply filterIDs_filter.
  - intros x. apply elem_of_filterIDs.
  - rewrite filterIDs_filter. apply sublist_filter.
  - rewrite filterIDs_filter. split.
    + intros Hnil. apply Forall_forall. intros x Hx.
      destruct (decide (x ∈ rem)) as [|Hout]; [done|].
      assert (x ∈ filter (fun x => x ∉ rem) in_) as Hf by by apply list_elem_of_filter.
      rewrite Hnil in Hf. by apply not_elem_of_nil in Hf.
    + intros Hall. induction Hall as [|x l Hx _ IH]; [done|].
      rewrite filter_cons_False; [done | by intros Hn].
  - intros grow h sin srem Hsin Hsrem <- <-.
    destruct (filterIDsOnHeap_spec grow h sin srem Hsin Hsrem)
      as (fresh & res & Hrun & Hc & Hi & Hr).
    by exists fresh, res.
Qed.

(** ** filterIDs: how it composes *)

Lemma filterIDs_nil_rem (in_ : list ID) : filterIDs in_ [] = in_.
Proof.
  rewrite filterIDs_filter. induction in_ as [|x l IH]; [done|].
  rewrite filter_cons_True by apply not_elem_of_nil. by rewrite IH.
Qed.

Lemma filterIDs_app_in (in1 in2 rem : list ID) :
  filterIDs (in1 ++ in2) rem = filterIDs in1 rem ++ filterIDs in2 rem.
Proof. rewrite !filterIDs_filter. apply filter_app. Qed.

Lemma filterIDs_app_rem (in_ rem1 rem2 : list ID) :
  filterIDs in_ (rem1 ++ rem2) = filterIDs (filterIDs in_ rem1) rem2.
Proof.
  rewrite !filterIDs_filter, list_filter_filter.
  apply list_filter_iff. intros x. rewrite elem_of_app. tauto.
Qed.

Lemma filterIDs_ext_rem (in_ rem1 rem2 : list ID) :
  (forall x, x ∈ rem1 <-> x ∈ rem2) -> filterIDs in_ rem1 = filterIDs in_ rem2.
Proof.
  intros Hsame. rewrite !filterIDs_filter.
  apply list_filter_iff. intros x. by rewrite Hsame.
Qed.

Lemma filterIDs_NoDup (in_ rem : list ID) :
  NoDup in_ -> NoDup (filterIDs in_ rem).
Proof. rewrite filterIDs_filter. apply NoDup_filter. Qed.

(** X1: [filterIDs] removes nothing when [rem] is empty, works on the
    pieces of [in] one after the other, removes a concatenation by removing
    its parts in turn, changes nothing when applied again with the same
    [rem], never lengthens the list, and keeps a duplicate-free list
    duplicate-free. *)
Theorem filterIDs_composes (in_ in' rem rem' : list ID) :
  filterIDs in_ [] = in_
  /\ filterIDs (in_ ++ in') rem = filterIDs in_ rem ++ filterIDs in' rem
  /\ filterIDs in_ (rem ++ rem') = filterIDs (filterIDs in_ rem) rem'
  /\ filterIDs (filterIDs in_ rem) rem = filterIDs in_ rem
  /\ length (filterIDs in_ rem) <= length in_
  /\ (NoDup in_ -> NoDup (filterIDs in_ rem)).
Proof.
  split_and!.
  - apply filterIDs_nil_rem.
  - apply filterIDs_app_in.
  - apply filterIDs_app_rem.
  - rewrite <- filterIDs_app_rem. apply filterIDs_ext_rem.
    intros x. rewrite elem_of_app. tauto.
  - rewrite filterIDs_filter. apply length_filter.
  - apply filterIDs_NoDup.
Qed.

(** X2: the result of [filterIDs] depends on [rem] only through the set of
    its elements: their order and their repetitions do not matter. *)
Theorem filterIDs_rem_as_set (in_ rem1 rem2 : list ID) :
  (forall x, x ∈ rem1 <-> x ∈ rem2) ->
  filterIDs in_ rem1 = filterIDs in_ rem2.
Proof.
  intros Hsame. rewrite !filterIDs_filter.
  induction in_ as [|x l IH]; [done|].
  destruct (decide (x ∈ rem1)) as [Hin|Hout].
  - rewrite !filter_cons_False; [done | | ]; intros Hn; apply Hn;
      [by apply Hsame | done].
  - rewrite !filter_cons_True; [by rewrite IH | | done].
    intros Hin. by apply Hout, Hsame.
Qed.

(** ** the validator: order of the connectors, and when it passes *)

Lemma validKeys_same_elements (keys1 keys2 : KeysOracle)
    (m : gmap ID ComponentConfig) (x : ID) :
  validKeys keys1 -> validKeys keys2 -> (x ∈ keys1 m <-> x ∈ keys2 m).
Proof. intros H1 H2. by rewrite (H1 m), (H2 m). Qed.

Lemma plainReceivers_ext (groups : list pipelineGroup) (rem1 rem2 : list ID) :
  (forall x, x ∈ rem1 <-> x ∈ rem2) ->
  plainReceivers groups rem1 = plainReceivers groups rem2.
Proof.
  intros Hsame. unfold plainReceivers.
  induction groups as [|g groups IH]; simpl; [done|].
  by rewrite IH, (filterIDs_ext_rem _ rem1 rem2 Hsame).
Qed.

(** X3: the verdict of the validator does not depend on the order in which
    [maps.Keys] yields the connectors: any two orders give the same
    diagnostics. *)
Theorem validator_independent_of_key_order (keys1 keys2 : KeysOracle)
    (groups : list pipelineGroup) (m : gmap ID ComponentConfig) :
  validKeys keys1 -> validKeys keys2 ->
  validateNoDuplicateReceivers groups (keys1 m)
  = validateNoDuplicateReceivers groups (keys2 m).
Proof.
  intros H1 H2. rewrite !validateNoDuplicateReceivers_repeats.
  by rewrite (plainReceivers_ext groups (keys1 m) (keys2 m)
                (fun x => validKeys_same_elements keys1 keys2 m x H1 H2)).
Qed.

Lemma NoDup_repeats_nil (seen : gset ID) (l : list ID) :
  NoDup l -> (forall y, y ∈ l -> y ∉ seen) -> repeats seen l = [].
Proof.
  intros Hnd. revert seen. induction Hnd as [|x l Hx Hnd IH]; intros seen Hfresh;
    simpl; [done|].
  rewrite decide_False by (apply Hfresh; by left). simpl.
  apply IH. intros y Hy. rewrite elem_of_union, elem_of_singleton.
  intros [->|Hseen]; [done|]. apply (Hfresh y); [by right | done].
Qed.

(** X4: the validator reports nothing exactly when no receiver that is not
    a connector is listed twice, be it by two groups or twice by one
    group. *)
Theorem validator_passes_iff_no_repeat (groups : list pipelineGroup)
    (connectorIDs : list ID) :
  validateNoDuplicateReceivers groups connectorIDs = []
  <-> NoDup (plainReceivers groups connectorIDs).
Proof.
  rewrite validateNoDuplicateReceivers_repeats. split.
  - intros Hnil. apply fmap_nil_inv in Hnil. by apply repeats_nil_NoDup in Hnil as [? _].
  - intros Hnd. rewrite NoDup_repeats_nil; [done | done |].
    intros y _. apply not_elem_of_empty.
Qed.

(** ** filterIDs in memory: nothing left *)

Lemma filterSteps_all_removed (grow : nat -> nat) (h : Heap) (sin : Slice)
    (rem : option Slice) (idxs : list nat) :
  Forall (fun i => index h sin i ∈ contents h rem) idxs ->
  foldl (filterStep grow sin rem) (h, None) idxs = (h, None).
Proof.
  induction 1 as [|i idxs Hi _ IH]; [done|]. cbn [foldl].
  unfold filterStep at 2. rewrite existsIn_spec.
  by rewrite bool_decide_eq_true_2.
Qed.

(** X5: when every element of [in] is in [rem], [filterIDs] returns the nil
    slice, and the heap is exactly as it was: nothing is allocated. *)
Theorem filterIDs_all_removed_returns_nil (grow : nat -> nat) (h : Heap)
    (in_ rem : option Slice) :
  Forall (fun x => x ∈ contents h rem) (contents h in_) ->
  filterIDsOnHeap grow h in_ rem = (h, None).
Proof.
  intros Hall. unfold filterIDsOnHeap. destruct in_ as [sin|]; [|done].
  apply filterSteps_all_removed. simpl in Hall.
  by rewrite Forall_fmap in Hall.
Qed.

(** ** the registry: which keys are bound *)

(** X6: the table binds a key exactly when some converter of the combined
    list declares it, and what it binds a key to is a converter of that list
    that declares the key; so no key of an extension, receiver, processor or
    exporter type is ever bound to a converter of another type. *)
Theorem table_binds_declared_keys (extraConverters : list ComponentConverter)
    (key : converterKey) :
  (buildConverterTable extraConverters !! key = None
   <-> forall conv, conv ∈ extraConverters ++ converters -> ~ declares key conv)
  /\ (forall conv,
        buildConverterTable extraConverters !! key = Some conv ->
        conv ∈ extraConverters ++ converters
        /\ declares key conv
        /\ factType (ConvFactory conv) = keyType key).
Proof.
  rewrite buildConverterTable_lookup. split.
  - rewrite fmap_None, list_find_None, Forall_forall. done.
  - intros conv Hfind. apply fmap_Some in Hfind as ([i c] & Hfind & ->). simpl.
    apply list_find_Some in Hfind as (Hi & Hdecl & _).
    split_and!; [|done|by destruct Hdecl].
    apply list_elem_of_lookup. by exists i.
Qed.

Lemma list_find_snd_app_r {A} (P : A -> Prop) `{forall x, Decision (P x)}
    (l1 l2 : list A) :
  (forall x, x ∈ l1 -> ~ P x) ->
  snd <$> list_find P (l1 ++ l2) = snd <$> list_find P l2.
Proof.
  intros Hnone.
  assert (Hl1 : list_find P l1 = None) by by apply list_find_None, Forall_forall.
  rewrite (list_find_app_r _ _ _ Hl1).
  by destruct (list_find P l2) as [[??]|].
Qed.

(** X7: overrides only shadow the keys they declare: a key that no override
    declares is bound as it is without overrides. *)
Theorem overrides_shadow_declared_keys_only
    (extraConverters : list ComponentConverter) (key : converterKey) :
  (forall override, override ∈ extraConverters -> ~ declares key override) ->
  buildConverterTable extraConverters !! key = buildConverterTable [] !! key.
Proof.
  intros Hnone. rewrite !buildConverterTable_lookup.
  by apply list_find_snd_app_r.
Qed.

(** ** getFactories *)

(** [getFactories] on a list: it returns when every factory has a known
    shape, and panics with the first factory of unknown shape otherwise. *)
Lemma addFactories_cases (l : list ComponentConverter) (facts : otelcol.Factories) :
  (Forall knownShape l /\ exists facts', foldOutcome addFactory facts l = Done facts')
  \/ (exists bad, bad ∈ l /\ factShape (ConvFactory bad) = OtherFactory
        /\ foldOutcome addFactory facts l
           = Panicked (UnknownFactoryType (ConvFactory bad))).
Proof.
  revert facts. induction l as [|conv l IH]; intros facts; simpl.
  - left. split; [constructor | by eauto].
  - destruct (decide (factShape (ConvFactory conv) = OtherFactory)) as [Hbad|Hok].
    + right. exists conv. split_and!; [by left | done |].
      unfold addFactory. by rewrite Hbad.
    + destruct (addFactory_known facts conv Hok) as [facts1 ->]. simpl.
      destruct (IH facts1) as [[Hall Hdone]|(bad & Hin & Hbad & Hpanic)].
      * left. split; [by constructor | done].
      * right. exists bad. split_and!; [by right | done | done].
Qed.

(** X8: [getFactories] returns exactly when every built-in converter has a
    factory of one of the five known shapes; otherwise it panics with the
    factory of a built-in converter of unknown shape. *)
Theorem getFactories_returns_iff_known_shapes :
  ((exists facts, getFactories = Done facts) <-> Forall knownShape converters)
  /\ (~ Forall knownShape converters ->
      exists bad, bad ∈ converters /\ factShape (ConvFactory bad) = OtherFactory
        /\ getFactories = Panicked (UnknownFactoryType (ConvFactory bad))).
Proof.
  unfold getFactories.
  destruct (addFactories_cases converters emptyFactories)
    as [[Hall [facts Hdone]]|(bad & Hin & Hbad & Hpanic)].
  - split; [|done]. split; [done | by eauto].
  - assert (Hnot : ~ Forall knownShape converters).
    { rewrite Forall_forall. intros Hall. by apply (Hall bad Hin). }
    split; [|by eauto]. rewrite Hpanic. split; [by intros [? ?] | done].
Qed.

Lemma addFactory_lookup (facts facts' : otelcol.Factories)
    (conv : ComponentConverter) (shape : FactoryShape) (ty : string) :
  shape <> OtherFactory ->
  addFactory facts conv = Done facts' ->
  factoriesOf facts' shape !! ty
  = if decide (factShape (ConvFactory conv) = shape /\ factType (ConvFactory conv) = ty)
    then Some (ConvFactory conv) else factoriesOf facts shape !! ty.
Proof.
  intros Hshape. unfold addFactory.
  destruct (factShape (ConvFactory conv)) eqn:Hconv; intros [= <-];
    destruct shape; try done; simpl;
    try (rewrite decide_False by (by intros [? ?]); done);
    (destruct (decide (factType (ConvFactory conv) = ty)) as [<-|Hne];
     [ rewrite lookup_insert_eq, decide_True by done; done
     | rewrite lookup_insert_ne by done;
       rewrite decide_False by (by intros [? ?]); done ]).
Qed.

Lemma addFactories_lookup (l : list ComponentConverter)
    (facts facts' : otelcol.Factories) (shape : FactoryShape) (ty : string) :
  shape <> OtherFactory ->
  foldOutcome addFactory facts l = Done facts' ->
  factoriesOf facts' shape !! ty
  = match lastFactory shape ty l with
    | Some fact => Some fact
    | None => factoriesOf facts shape !! ty
    end.
Proof.
  intros Hshape. revert facts. induction l as [|conv l IH]; intros facts; simpl.
  - by intros [= <-].
  - destruct (addFactory facts conv) as [facts1|] eqn:Hadd; simpl; [|done].
    intros Hrest. rewrite (IH _ Hrest).
    destruct (lastFactory shape ty l); [done|].
    rewrite (addFactory_lookup _ _ _ _ _ Hshape Hadd). by case_decide.
Qed.


(** ** Convert: what it returns when *)

(** X10: when a built-in converter has a factory of unknown shape, [Convert]
    (without extra arguments) never reaches the conversion: it returns the
    error of the provider when the provider cannot be created, and panics
    with a factory of unknown shape otherwise, whatever the input. *)
Theorem Convert_with_unknown_builtin (keys : KeysOracle) (in_ : list byte)
    (conv : ComponentConverter) :
  conv ∈ converters ->
  factShape (ConvFactory conv) = OtherFactory ->
  match NewConfigProvider ["yaml:" +:+ string_of_list_byte in_] with
  | inl err =>
      Convert keys in_ []
      = Done (None, [critical ("failed to create otelcol config provider: " +:+ err)])
  | inr _ =>
      exists bad, bad ∈ converters /\ factShape (ConvFactory bad) = OtherFactory
        /\ Convert keys in_ [] = Panicked (UnknownFactoryType (ConvFactory bad))
  end.
Proof.
  intros Hin Hshape. unfold Convert, readOpentelemetryConfig. simpl.
  destruct (NewConfigProvider _) as [err|provider]; simpl; [done|].
  unfold getFactories.
  destruct (addFactories_cases converters emptyFactories)
    as [[Hall _]|(bad & Hbadin & Hbad & ->)].
  - rewrite Forall_forall in Hall. by destruct (Hall conv Hin).
  - exists bad. by split_and!.
Qed.

(** With any extra argument [Convert] returns nil bytes and one
    critical diagnostic that lists the arguments between brackets; the
    input is not read and the built-in converters are not inspected, so
    this can not panic. *)
Theorem Convert_rejects_extra_arguments (keys : KeysOracle) (in_ : list byte)
    (extraArgs : list string) :
  extraArgs <> [] ->
  Convert keys in_ extraArgs
  = Done (None,
          [critical ("extra arguments are not supported for the otelcol converter: ["
                     +:+ String.concat " " extraArgs +:+ "]")]).
Proof. intros Hargs. unfold Convert. by destruct extraArgs. Qed.

(** X11: [Convert] returns bytes only at the end of the whole chain: no
    extra argument, the input read and validated, [AppendConfig] returned,
    the file rendered to at least one byte, and the bytes are those of
    [PrettyPrint]; the diagnostics are then those of [AppendConfig], of
    [ValidateNodes] and of [PrettyPrint], in this order. *)
Theorem Convert_output_inversion (keys : KeysOracle) (in_ : list byte)
    (extraArgs : list string) (out : list byte) (diags : Diagnostics) :
  Convert keys in_ extraArgs = Done (Some out, diags) ->
  extraArgs = []
  /\ exists c appended w buf newDiags,
       readOpentelemetryConfig in_ = Done (inr c)
       /\ Validate c = None
       /\ AppendConfig keys c "" [] {| file := NewFile; calls := [] |}
          = Done (appended, w)
       /\ WriteTo (file w) = inr buf
       /\ buf <> []
       /\ PrettyPrint buf = (Some out, newDiags)
       /\ diags = appended ++ ValidateNodes (file w) ++ newDiags.
Proof.
  unfold Convert. destruct extraArgs as [|arg args]; simpl; [|done].
  destruct (readOpentelemetryConfig in_) as [[err|c]|]; simpl; [done| |done].
  destruct (Validate c) eqn:Hval; [done|].
  destruct (AppendConfig keys c "" [] _) as [[appended w]|] eqn:Hrun; simpl; [|done].
  destruct (WriteTo (file w)) as [err|buf] eqn:Hw; [done|].
  destruct buf as [|b buf]; simpl; [done|].
  destruct (PrettyPrint (b :: buf)) as [pretty newDiags] eqn:Hpp.
  intros [= -> <-]. split; [done|].
  exists c, appended, w, (b :: buf), newDiags.
  split_and!; try done. unfold AddAll. simpl. by rewrite <- app_assoc.
Qed.


(** ** the dispatch stops at the first miss *)

Lemma firstMiss_app (table : converterTable) (l1 l2 : list InstanceID) :
  firstMiss table (l1 ++ l2)
  = match firstMiss table l1 with
    | Some i => Some i
    | None => firstMiss table l2
    end.
Proof.
  unfold firstMiss.
  destruct (list_find _ l1) as [[n i]|] eqn:Hl1; simpl.
  - by rewrite (list_find_app_l _ _ _ _ _ Hl1).
  - rewrite (list_find_app_r _ _ _ Hl1). by destruct (list_find _ l2) as [[??]|].
Qed.

Lemma firstMiss_None (table : converterTable) (plan : list InstanceID) :
  firstMiss table plan = None
  <-> Forall (fun i => is_Some (table !! keyOf i)) plan.
Proof.
  unfold firstMiss. rewrite fmap_None, list_find_None.
  apply Forall_proper; [|done]. intros i.
  rewrite <- not_eq_None_Some. done.
Qed.

Lemma firstMiss_singleton (table : converterTable) (i : InstanceID) :
  firstMiss table [i]
  = match table !! keyOf i with
    | Some _ => None
    | None => Some i
    end.
Proof.
  unfold firstMiss. cbn [list_find].
  destruct (table !! keyOf i) eqn:Hlook.
  - rewrite decide_False by done. done.
  - rewrite decide_True by done. done.
Qed.

Lemma foldM_firstMiss {A B} (table : converterTable) (f : A -> B -> M A)
    (plan : B -> list InstanceID) :
  (forall a x w, stopsAtFirstMiss table (plan x) (f a x w)) ->
  forall l a w, stopsAtFirstMiss table (flat_map plan l) (foldM f a l w).
Proof.
  intros Hf. induction l as [|x l IH]; intros a w; unfold stopsAtFirstMiss; simpl.
  - unfold retM. by eauto.
  - rewrite firstMiss_app. specialize (Hf a x w). unfold stopsAtFirstMiss in Hf.
    unfold bindM. destruct (firstMiss table (plan x)) as [i|].
    + by rewrite Hf.
    + destruct Hf as (a1 & w1 & ->). apply IH.
Qed.

Lemma convertComponent_firstMiss c labelPrefix table extensionTable g set diags id w :
  stopsAtFirstMiss table [NewInstanceID id (setKind set)]
    (convertComponent c labelPrefix table extensionTable g set diags id w).
Proof.
  unfold stopsAtFirstMiss. rewrite firstMiss_singleton. unfold convertComponent.
  change (keyOf (NewInstanceID id (setKind set)))
    with {| keyKind := setKind set; keyType := typeVal id |}.
  destruct (table !! _) as [conv|]; [|done].
  unfold bindM. rewrite invoke_run. unfold retM. by eauto.
Qed.

Lemma convertExtension_firstMiss c labelPrefix table acc ext w :
  stopsAtFirstMiss table [NewInstanceID ext KindExtension]
    (convertExtension c labelPrefix table acc ext w).
Proof.
  unfold stopsAtFirstMiss. rewrite firstMiss_singleton. unfold convertExtension.
  destruct acc as [diags et].
  change (keyOf (NewInstanceID ext KindExtension))
    with {| keyKind := KindExtension; keyType := typeVal ext |}.
  destruct (table !! _) as [conv|]; [|done].
  unfold bindM. rewrite invoke_run. unfold retM. by eauto.
Qed.

Lemma convertGroup_firstMiss c labelPrefix table extensionTable connectorIDs diags g w :
  stopsAtFirstMiss table (groupPlan connectorIDs g)
    (convertGroup c labelPrefix table extensionTable connectorIDs diags g w).
Proof.
  unfold convertGroup.
  pose proof (foldM_firstMiss table
                (convertSet c labelPrefix table extensionTable g)
                (fun set => instancesOf (setKind set) (setIDs set))) as Hsets.
  unfold groupPlan.
  match goal with
  | |- stopsAtFirstMiss _ _ (foldM _ _ ?sets _) =>
      specialize (fun H => Hsets H sets diags w)
  end.
  simpl in Hsets. rewrite app_nil_r in Hsets. apply Hsets.
  intros a set w0. unfold convertSet, instancesOf.
  rewrite <- (flat_map_singleton (fun id => NewInstanceID id (setKind set))).
  apply foldM_firstMiss. intros. apply convertComponent_firstMiss.
Qed.

(** X13: once the duplicate-receiver gate is passed, [AppendConfig] goes
    through the dispatch plan until the first instance whose key the table
    does not bind, and panics there with that key; it returns when the
    table binds the key of every planned instance, and only then. *)
Theorem AppendConfig_stops_at_first_miss (keys : KeysOracle) (c : otelcol.Config)
    (labelPrefix : string) (extraConverters : list ComponentConverter)
    (groups : list pipelineGroup) (w : World) :
  createPipelineGroups (service.Pipelines (otelcol.Service c)) = inr groups ->
  validateNoDuplicateReceivers groups (keys (otelcol.Connectors c)) = [] ->
  let table := buildConverterTable extraConverters in
  let plan := dispatchPlan (service.Extensions (otelcol.Service c))
                           (keys (otelcol.Connectors c)) groups in
  match firstMiss table plan with
  | Some i =>
      AppendConfig keys c labelPrefix extraConverters w
      = Panicked (NoConverterFound (keyOf i))
  | None => exists d w', AppendConfig keys c labelPrefix extraConverters w = Done (d, w')
  end
  /\ (firstMiss table plan = None
      <-> Forall (fun i => is_Some (table !! keyOf i)) plan).
Proof.
  intros Hgroups Hval table plan. split; [|apply firstMiss_None].
  unfold plan, dispatchPlan. rewrite firstMiss_app.
  unfold AppendConfig. rewrite Hgroups. cbv zeta. rewrite Hval. simpl.
  pose proof (foldM_firstMiss table (convertExtension c labelPrefix table)
                (fun ext => [NewInstanceID ext KindExtension])
                (fun a x w => convertExtension_firstMiss c labelPrefix table a x w)
                (service.Extensions (otelcol.Service c)) ([], ∅) w) as Hext.
  unfold stopsAtFirstMiss in Hext. rewrite flat_map_singleton in Hext.
  fold table. unfold bindM, instancesOf at 1.
  destruct (firstMiss table (map _ (service.Extensions _))) as [i|].
  - by rewrite Hext.
  - destruct Hext as ([d1 et] & w1 & Hext). rewrite Hext.
    pose proof (foldM_firstMiss table
                  (convertGroup c labelPrefix table et (keys (otelcol.Connectors c)))
                  (groupPlan (keys (otelcol.Connectors c)))
                  (fun a g w => convertGroup_firstMiss c labelPrefix table et _ a g w)
                  groups d1 w1) as Hgrp.
    unfold stopsAtFirstMiss in Hgrp.
    destruct (firstMiss table (flat_map _ groups)) as [i|].
    + by rewrite Hgrp.
    + destruct Hgrp as (d2 & w2 & ->). unfold retM. by eauto.
Qed.

(** ** the context of every invocation *)

Lemma foldM_trace {A B T} (proj : Call -> T) (P : Call -> Prop)
    (f : A -> B -> M A) (plan : B -> list T) (l : list B) :
  (forall a x w a' w', x ∈ l -> f a x w = Done (a', w') ->
     exists cs, calls w' = calls w ++ cs /\ map proj cs = plan x /\ Forall P cs) ->
  forall a w a' w', foldM f a l w = Done (a', w') ->
     exists cs, calls w' = calls w ++ cs /\ map proj cs = flat_map plan l
                /\ Forall P cs.
Proof.
  induction l as [|x l IH]; intros Hf a w a' w' Hrun; simpl in Hrun.
  - injection Hrun as <- <-. exists []. by rewrite app_nil_r.
  - unfold bindM in Hrun. destruct (f a x w) as [[a1 w1]|] eqn:Hstep; [|done].
    destruct (Hf _ _ _ _ _ (list_elem_of_here _ _) Hstep) as (cs1 & Hc1 & Hm1 & HP1).
    destruct (IH (fun a x w a' w' Hx => Hf a x w a' w' (list_elem_of_further _ _ _ Hx))
                 _ _ _ _ Hrun) as (cs2 & Hc2 & Hm2 & HP2).
    exists (cs1 ++ cs2). split_and!.
    + by rewrite Hc2, Hc1, app_assoc.
    + simpl. by rewrite map_app, Hm1, Hm2.
    + by apply Forall_app.
Qed.

Lemma convertSet_calls c labelPrefix table extensionTable g diags set w d w' :
  configLookup set = roleConfigs c (setKind set) ->
  convertSet c labelPrefix table extensionTable g diags set w = Done (d, w') ->
  exists cs, calls w' = calls w ++ cs
    /\ map groupOf cs = map (pair g) (instancesOf (setKind set) (setIDs set))
    /\ Forall (groupCallOK c labelPrefix table extensionTable) cs.
Proof.
  intros Hlookup Hrun. unfold convertSet in Hrun.
  eapply (foldM_trace groupOf _ _
            (fun id => [(g, NewInstanceID id (setKind set))])) in Hrun.
  - destruct Hrun as (cs & Hc & Hm & HP). exists cs. split_and!; [done | | done].
    rewrite Hm, flat_map_singleton. unfold instancesOf. by rewrite map_map.
  - intros a id w0 a' w0' _. unfold convertComponent.
    destruct (table !! _) as [conv|] eqn:Hconv; [|done].
    unfold bindM. rewrite invoke_run. unfold retM. intros [= <- <-].
    eexists [_]. split_and!; [done | done |].
    apply Forall_singleton. unfold groupCallOK, groupState. simpl.
    rewrite Hlookup. done.
Qed.

Lemma convertGroup_calls c labelPrefix table extensionTable connectorIDs diags g w d w' :
  convertGroup c labelPrefix table extensionTable connectorIDs diags g w = Done (d, w') ->
  exists cs, calls w' = calls w ++ cs
    /\ map groupOf cs = map (pair g) (groupPlan connectorIDs g)
    /\ Forall (groupCallOK c labelPrefix table extensionTable) cs.
Proof.
  unfold convertGroup. intros Hrun.
  eapply (foldM_trace groupOf _ _
            (fun set => map (pair g) (instancesOf (setKind set) (setIDs set))))
    in Hrun.
  - destruct Hrun as (cs & Hc & Hm & HP). exists cs. split_and!; [done | | done].
    rewrite Hm. simpl. unfold groupPlan. by rewrite app_nil_r, !map_app.
  - intros a set w0 a' w0' Hset. apply convertSet_calls.
    repeat (apply elem_of_cons in Hset as [->|Hset]); try done.
    by apply not_elem_of_nil in Hset.
Qed.

Lemma extensions_fold c labelPrefix table (exts : list ID) :
  forall acc w acc' w',
    foldM (convertExtension c labelPrefix table) acc exts w = Done (acc', w') ->
    exists cs, calls w' = calls w ++ cs
      /\ map callID cs = instancesOf KindExtension exts
      /\ Forall (extensionCallOK c labelPrefix table) cs
      /\ forall ext,
           acc'.2 !! ext
           = if decide (ext ∈ exts)
             then extensionEntry c labelPrefix table ext
                    <$> table !! keyOf (NewInstanceID ext KindExtension)
             else acc.2 !! ext.
Proof.
  induction exts as [|e exts IH]; intros [d0 et0] w acc' w' Hrun;
    cbn [foldM] in Hrun.
  - unfold retM in Hrun. injection Hrun as <- <-. exists [].
    rewrite app_nil_r. by split_and!.
  - unfold bindM in Hrun.
    destruct (convertExtension c labelPrefix table (d0, et0) e w)
      as [[acc1 w1]|] eqn:Hstep; [|done].
    unfold convertExtension in Hstep.
    destruct (table !! {| keyKind := KindExtension; keyType := typeVal e |})
      as [conv|] eqn:Hconv; [|done].
    unfold bindM in Hstep. rewrite invoke_run in Hstep. unfold retM in Hstep.
    injection Hstep as <- <-.
    destruct (IH _ _ _ _ Hrun) as (cs & Hc & Hm & HP & Het).
    eexists (_ :: cs). split_and!.
    + rewrite Hc. simpl. by rewrite <- app_assoc.
    + simpl. by rewrite Hm.
    + constructor; [|done]. exists e. by split_and!.
    + intros ext. rewrite Het. simpl.
      destruct (decide (ext ∈ exts)) as [Hin|Hout].
      * rewrite decide_True by (by right). done.
      * destruct (decide (ext = e)) as [->|Hne].
        -- rewrite decide_True by (by left). rewrite lookup_insert_eq.
           unfold keyOf. simpl. by rewrite Hconv.
        -- rewrite lookup_insert_ne by done.
           rewrite decide_False; [done|].
           rewrite elem_of_cons. tauto.
Qed.

(** The whole trace of a run that passed the gate and returned. *)
Lemma AppendConfig_trace keys c labelPrefix extraConverters groups w d w' :
  createPipelineGroups (service.Pipelines (otelcol.Service c)) = inr groups ->
  validateNoDuplicateReceivers groups (keys (otelcol.Connectors c)) = [] ->
  AppendConfig keys c labelPrefix extraConverters w = Done (d, w') ->
  let table := buildConverterTable extraConverters in
  let exts := service.Extensions (otelcol.Service c) in
  exists cs1 cs2 et,
    calls w' = calls w ++ cs1 ++ cs2
    /\ map callID cs1 = instancesOf KindExtension exts
    /\ Forall (extensionCallOK c labelPrefix table) cs1
    /\ map groupOf cs2 = groupedPlan (keys (otelcol.Connectors c)) groups
    /\ Forall (groupCallOK c labelPrefix table et) cs2
    /\ forall ext,
         et !! ext
         = if decide (ext ∈ exts)
           then extensionEntry c labelPrefix table ext
                  <$> table !! keyOf (NewInstanceID ext KindExtension)
           else None.
Proof.
  intros Hgroups Hval Hrun table exts. unfold AppendConfig in Hrun.
  rewrite Hgroups in Hrun. cbv zeta in Hrun. rewrite Hval in Hrun. simpl in Hrun.
  unfold bindM in Hrun. fold table exts in Hrun.
  destruct (foldM (convertExtension _ _ _) _ _ w) as [[[d1 et] w1]|] eqn:Hext; [|done].
  destruct (foldM (convertGroup _ _ _ _ _) _ _ w1) as [[d2 w2]|] eqn:Hgrp; [|done].
  unfold retM in Hrun. injection Hrun as <- <-.
  apply extensions_fold in Hext as (cs1 & Hc1 & Hm1 & HP1 & Het).
  eapply (foldM_trace groupOf _ _
            (fun g => map (pair g) (groupPlan (keys (otelcol.Connectors c)) g)))
    in Hgrp; [|intros; by eapply convertGroup_calls].
  destruct Hgrp as (cs2 & Hc2 & Hm2 & HP2).
  exists cs1, cs2, et. split_and!; try done.
  by rewrite Hc2, Hc1, app_assoc.
Qed.

(** X14: in a run of [AppendConfig] that passed the gate and returned, the
    calls are those of the extensions followed by those of the groups, group
    after group.  Every extension-phase strategy was given the placeholder
    group, an empty extension table and the whole extension map; every
    group-phase strategy was given its group and the configuration stored
    under its identity in the map of its role (nil when there is none); each
    was given the configuration, the table and the label prefix of the
    call, and is the converter the table binds the key of the instance to. *)
Theorem strategies_get_their_context (keys : KeysOracle) (c : otelcol.Config)
    (labelPrefix : string) (extraConverters : list ComponentConverter)
    (groups : list pipelineGroup) (w : World) (d : Diagnostics) (w' : World) :
  createPipelineGroups (service.Pipelines (otelcol.Service c)) = inr groups ->
  validateNoDuplicateReceivers groups (keys (otelcol.Connectors c)) = [] ->
  AppendConfig keys c labelPrefix extraConverters w = Done (d, w') ->
  exists cs1 cs2 et,
    calls w' = calls w ++ cs1 ++ cs2
    /\ map callID cs1
       = instancesOf KindExtension (service.Extensions (otelcol.Service c))
    /\ Forall (extensionCallOK c labelPrefix (buildConverterTable extraConverters)) cs1
    /\ map groupOf cs2 = groupedPlan (keys (otelcol.Connectors c)) groups
    /\ Forall (groupCallOK c labelPrefix (buildConverterTable extraConverters) et) cs2.
Proof.
  intros Hgroups Hval Hrun.
  destruct (AppendConfig_trace _ _ _ _ _ _ _ _ Hgroups Hval Hrun)
    as (cs1 & cs2 & et & Hc & Hm1 & HP1 & Hm2 & HP2 & _).
  by exists cs1, cs2, et.
Qed.

(** ** the extension table *)

Lemma string_app_cons (a : ascii) (s t : string) :
  String a s +:+ t = String a (s +:+ t).
Proof. reflexivity. Qed.

Lemma string_app_nil_r (s : string) : s +:+ "" = s.
Proof. induction s as [|a s IH]; [done|]. by rewrite string_app_cons, IH. Qed.

Lemma string_app_assoc (s t u : string) : (s +:+ t) +:+ u = s +:+ (t +:+ u).
Proof. induction s as [|a s IH]; [done|]. by rewrite !string_app_cons, IH. Qed.

Lemma splitFrom_not_nil (sep : ascii) (s cur : string) : splitFrom sep cur s <> [].
Proof.
  revert cur. induction s as [|a s IH]; intros cur; simpl; [done|].
  destruct (decide (a = sep)); [done | apply IH].
Qed.

(** Joining the pieces with the separator gives the string back. *)
Lemma splitFrom_concat (sep : ascii) (s cur : string) :
  String.concat (String sep "") (splitFrom sep cur s) = cur +:+ s.
Proof.
  revert cur. induction s as [|a s IH]; intros cur; simpl.
  - by rewrite string_app_nil_r.
  - destruct (decide (a = sep)) as [->|Hne].
    + pose proof (splitFrom_not_nil sep s "") as Hnil. specialize (IH "").
      destruct (splitFrom sep "" s) as [|piece rest]; [done|].
      change (String.concat (String sep "") (cur :: piece :: rest))
        with (cur +:+ String sep "" +:+ String.concat (String sep "") (piece :: rest)).
      rewrite IH. done.
    + rewrite IH, string_app_assoc. done.
Qed.

Lemma Split_concat (s : string) (sep : ascii) :
  String.concat (String sep "") (Split s sep) = s.
Proof. unfold Split. by rewrite splitFrom_concat. Qed.

Lemma groupPlan_not_extension (connectorIDs : list ID) (g : pipelineGroup)
    (i : InstanceID) :
  i ∈ groupPlan connectorIDs g -> InstanceKind i <> KindExtension.
Proof.
  unfold groupPlan, instancesOf. rewrite !elem_of_app, !list_elem_of_fmap.
  intros [(? & -> & _)|[(? & -> & _)|[(? & -> & _)|(? & -> & _)]]]; done.
Qed.

(** X15: in a run of [AppendConfig] that passed the gate and returned, the
    extension-phase strategies saw an empty extension table and all the
    group-phase strategies saw one and the same table.  That table has an
    entry for exactly the listed service extensions; the name of an entry,
    joined with dots, is the input component name of the extension's
    converter, and its label is the label of the extension's context. *)
Theorem extension_table_is_complete (keys : KeysOracle) (c : otelcol.Config)
    (labelPrefix : string) (extraConverters : list ComponentConverter)
    (groups : list pipelineGroup) (w : World) (d : Diagnostics) (w' : World) :
  createPipelineGroups (service.Pipelines (otelcol.Service c)) = inr groups ->
  validateNoDuplicateReceivers groups (keys (otelcol.Connectors c)) = [] ->
  AppendConfig keys c labelPrefix extraConverters w = Done (d, w') ->
  exists cs et,
    calls w' = calls w ++ cs
    /\ (forall call, call ∈ cs ->
          extensionLookup (callState call)
          = if decide (InstanceKind (callID call) = KindExtension) then ∅ else et)
    /\ (forall ext,
          is_Some (et !! ext) <-> ext ∈ service.Extensions (otelcol.Service c))
    /\ (forall ext entry,
          et !! ext = Some entry ->
          exists conv,
            buildConverterTable extraConverters
              !! {| keyKind := KindExtension; keyType := typeVal ext |} = Some conv
            /\ String.concat "." (Name entry) = InputComponentName conv
            /\ Label entry
               = AlloyComponentLabel
                   (extensionState c labelPrefix
                      (buildConverterTable extraConverters) ext)).
Proof.
  intros Hgroups Hval Hrun.
  destruct (AppendConfig_trace _ _ _ _ _ _ _ _ Hgroups Hval Hrun)
    as (cs1 & cs2 & et & Hc & Hm1 & HP1 & Hm2 & HP2 & Het).
  assert (Hbound : forall ext, ext ∈ service.Extensions (otelcol.Service c) ->
            is_Some (buildConverterTable extraConverters
                       !! keyOf (NewInstanceID ext KindExtension))).
  { intros ext Hext.
    assert (Hin : NewInstanceID ext KindExtension ∈ map callID cs1).
    { rewrite Hm1. unfold instancesOf.
      by apply (list_elem_of_fmap_2 (fun id => NewInstanceID id KindExtension)). }
    apply list_elem_of_fmap in Hin as (call & Hid & Hcall).
    rewrite Forall_forall in HP1. destruct (HP1 call Hcall) as (e & _ & Hconv & _).
    rewrite Hid. by eauto. }
  exists (cs1 ++ cs2), et. split_and!; [done | | |].
  - intros call [Hcall|Hcall]%elem_of_app.
    + rewrite Forall_forall in HP1. destruct (HP1 call Hcall) as (e & Hid & _ & Hst & _).
      rewrite Hid, Hst. done.
    + rewrite Forall_forall in HP2. destruct (HP2 call Hcall) as (_ & Hst & _).
      assert (Hkind : InstanceKind (callID call) <> KindExtension).
      { assert (Hin : groupOf call ∈ map groupOf cs2)
          by by apply (list_elem_of_fmap_2 groupOf).
        rewrite Hm2 in Hin. unfold groupedPlan in Hin.
        apply list_elem_of_In, in_flat_map in Hin as (g & _ & Hin).
        apply list_elem_of_In, list_elem_of_fmap in Hin as (i & Hpair & Hi).
        unfold groupOf in Hpair. injection Hpair as _ ->.
        by eapply groupPlan_not_extension. }
      rewrite decide_False by done. by rewrite Hst.
  - intros ext. rewrite Het. destruct (decide (ext ∈ _)) as [Hin|Hout].
    + destruct (Hbound ext Hin) as [conv ->]. simpl. split; [done | by eauto].
    + split; [by intros [? ?] | done].
  - intros ext entry. rewrite Het. destruct (decide (ext ∈ _)) as [Hin|Hout]; [|done].
    destruct (Hbound ext Hin) as [conv Hconv]. rewrite Hconv. simpl.
    intros [= <-]. exists conv. split_and!; [done | | done].
    unfold extensionEntry. simpl. apply (Split_concat _ "."%char).
Qed.

(** ** no deduplication of extensions, processors and exporters *)

Lemma occurrences_groups_kind (connectorIDs : list ID) (groups : list pipelineGroup)
    (id : ID) :
  occurrences (NewInstanceID id KindProcessor)
              (flat_map (groupPlan connectorIDs) groups)
  = length (filter (fun x => x = id) (flat_map Processors groups))
  /\ occurrences (NewInstanceID id KindExporter)
                 (flat_map (groupPlan connectorIDs) groups)
     = length (filter (fun x => x = id)
                 (flat_map (fun g => filterIDs (Exporters g) connectorIDs) groups)).
Proof.
  induction groups as [|g groups [IHp IHe]]; simpl; [done|].
  rewrite !occurrences_app, IHp, IHe, !filter_app, !length_app.
  unfold groupPlan. rewrite !occurrences_app.
  rewrite (occurrences_other_kind _ KindReceiver) by done.
  rewrite (occurrences_other_kind (NewInstanceID id KindProcessor) KindExporter) by done.
  rewrite (occurrences_other_kind _ KindConnector) by done.
  rewrite (occurrences_other_kind (NewInstanceID id KindExporter) KindReceiver) by done.
  rewrite (occurrences_other_kind (NewInstanceID id KindExporter) KindProcessor) by done.
  rewrite (occurrences_other_kind (NewInstanceID id KindExporter) KindConnector) by done.
  rewrite !occurrences_same_kind. lia.
Qed.

Lemma occurrences_groups_extension (connectorIDs : list ID)
    (groups : list pipelineGroup) (id : ID) :
  occurrences (NewInstanceID id KindExtension)
              (flat_map (groupPlan connectorIDs) groups) = 0.
Proof.
  induction groups as [|g groups IH]; simpl; [done|].
  rewrite occurrences_app, IH. unfold groupPlan.
  rewrite !occurrences_app, !occurrences_other_kind by done. done.
Qed.

(** X16: only receivers are guarded against repetition.  In a run of
    [AppendConfig] that passed the gate and returned, an extension is
    invoked once for each of its occurrences in the list of service
    extensions, a processor once for each occurrence in the processor list
    of any group, and an exporter that is not a connector once for each
    occurrence in the exporter list of any group. *)
Theorem dispatch_repeats_what_is_listed (keys : KeysOracle) (c : otelcol.Config)
    (labelPrefix : string) (extraConverters : list ComponentConverter)
    (groups : list pipelineGroup) (w : World) (d : Diagnostics) (w' : World) :
  createPipelineGroups (service.Pipelines (otelcol.Service c)) = inr groups ->
  validateNoDuplicateReceivers groups (keys (otelcol.Connectors c)) = [] ->
  AppendConfig keys c labelPrefix extraConverters w = Done (d, w') ->
  exists cs,
    calls w' = calls w ++ cs
    /\ forall id,
         occurrences (NewInstanceID id KindExtension) (map callID cs)
         = length (filter (fun x => x = id) (service.Extensions (otelcol.Service c)))
         /\ occurrences (NewInstanceID id KindProcessor) (map callID cs)
            = length (filter (fun x => x = id) (flat_map Processors groups))
         /\ occurrences (NewInstanceID id KindExporter) (map callID cs)
            = length (filter (fun x => x = id)
                        (flat_map (fun g => filterIDs (Exporters g)
                                               (keys (otelcol.Connectors c)))
                                  groups)).
Proof.
  intros Hgroups Hval Hrun.
  destruct (AppendConfig_Done _ _ _ _ _ _ _ _ Hgroups Hrun)
    as [(Hne & _)|(_ & cs & Hc & Hm & _)]; [done|].
  exists cs. split; [done|]. intros id. rewrite Hm. unfold dispatchPlan.
  rewrite !occurrences_app.
  destruct (occurrences_groups_kind (keys (otelcol.Connectors c)) groups id)
    as [-> ->].
  rewrite occurrences_groups_extension, occurrences_same_kind.
  rewrite !occurrences_other_kind by done. split_and!; lia.
Qed.

(** ** the reader's factories and the table agree *)

Lemma lastFactory_Some (shape : FactoryShape) (ty : string)
    (l : list ComponentConverter) (fact : Factory) :
  lastFactory shape ty l = Some fact ->
  exists conv, conv ∈ l /\ ConvFactory conv = fact
               /\ factShape fact = shape /\ factType fact = ty.
Proof.
  induction l as [|conv l IH]; simpl; [done|].
  destruct (lastFactory shape ty l) as [f|].
  - intros [= ->]. destruct (IH eq_refl) as (conv' & Hin & Hrest).
    exists conv'. split; [by right | done].
  - case_decide as Hmatch; [|done]. intros [= <-].
    exists conv. destruct Hmatch. split_and!; [by left | done..].
Qed.


End Properties.

(** * The dispatcher on the example instance *)

Lemma ascending_valid : validKeys Example.ascending.
Proof. intros m. reflexivity. Qed.

Lemma descending_valid : validKeys Example.descending.
Proof. intros m. unfold Example.descending. apply reverse_Permutation. Qed.

(** C1 fails as stated: with two pipeline groups, the connector
    [spanmetrics] is dispatched twice, once for each group, and two
    connector blocks are in the file. *)
Lemma connector_dispatched_twice :
  Example.dispatch Example.ascending Example.bridged []
  = Some (Example.bridgedInstances,
          [ "otelcol.receiver.otlp a_in"; "otelcol.exporter.otlp a_out";
            "otelcol.connector.spanmetrics a_";
            "otelcol.receiver.otlp b_other"; "otelcol.exporter.otlp b_sink";
            "otelcol.connector.spanmetrics b_" ],
          [ Example.info "otlpReceiverConverter: otlp/in";
            Example.info "otlpExporterConverter: otlp/out";
            Example.info "spanmetricsConnectorConverter: spanmetrics";
            Example.info "otlpReceiverConverter: otlp/other";
            Example.info "otlpExporterConverter: otlp/sink";
            Example.info "spanmetricsConnectorConverter: spanmetrics" ])
  /\ occurrences (NewInstanceID (Example.mkID "spanmetrics" "") KindConnector)
                 Example.bridgedInstances = 2
  /\ ~ NoDup Example.bridgedInstances.
Proof.
  split; [vm_compute; reflexivity|]. split; [reflexivity|].
  intros Hnd. pose proof (bool_decide_pack _ Hnd) as Hb. vm_compute in Hb. exact Hb.
Qed.

Lemma dispatch_returns (keys : KeysOracle) (c : otelcol.Config)
    (extraConverters : list ComponentConverter) :
  Example.dispatch keys c extraConverters <> None ->
  exists d w',
    @AppendConfig Example.env keys c "" extraConverters Example.start = Done (d, w').
Proof.
  unfold Example.dispatch.
  destruct (@AppendConfig Example.env keys c "" extraConverters Example.start)
    as [[d w']|p]; [|done].
  intros _. by exists d, w'.
Qed.

Lemma connector_dispatched_once_per_group_witness :
  exists d w',
    @AppendConfig Example.env Example.ascending Example.bridged "" [] Example.start
    = Done (d, w')
    /\ exists cs,
         calls w' = calls Example.start ++ cs
         /\ map callID cs
            = dispatchPlan (service.Extensions (otelcol.Service Example.bridged))
                           (Example.ascending (otelcol.Connectors Example.bridged))
                           Example.bridgedGroups
         /\ (forall id, occurrences (NewInstanceID id KindReceiver) (map callID cs) <= 1)
         /\ (forall id, is_Some (otelcol.Connectors Example.bridged !! id) ->
               occurrences (NewInstanceID id KindConnector) (map callID cs)
               = length Example.bridgedGroups).
Proof.
  assert (Hreturns :
    Example.dispatch Example.ascending Example.bridged [] <> None)
    by (vm_compute; discriminate).
  destruct (dispatch_returns _ _ _ Hreturns) as (d & w' & Hrun).
  exists d, w'. split; [exact Hrun|].
  apply (@connector_dispatched_once_per_group Example.env Example.ascending
           Example.bridged "" [] Example.bridgedGroups Example.start d w').
  - exact ascending_valid.
  - vm_compute; reflexivity.
  - vm_compute; reflexivity.
  - exact Hrun.
Defined.

Lemma duplicate_receiver_rejected_witness :
  (exists diags,
     @AppendConfig Example.env Example.ascending Example.shared "" [] Example.start
     = Done (diags, Example.start)
     /\ critical (@duplicateReceiverMessage Example.env (Example.mkID "otlp" "")) ∈ diags
     /\ Forall (fun d => DiagSeverity d = SeverityLevelCritical) diags)
  /\ (forall in_,
        @readOpentelemetryConfig Example.env in_ = Done (inr Example.shared) ->
        @Validate Example.env Example.shared = None ->
        (forall buf, @WriteTo Example.env (@NewFile Example.env) = inr buf -> buf = []) ->
        exists diags,
          @Convert Example.env Example.ascending in_ [] = Done (None, diags)
          /\ critical (@duplicateReceiverMessage Example.env (Example.mkID "otlp" ""))
             ∈ diags).
Proof.
  apply (@duplicate_receiver_rejected Example.env Example.ascending Example.shared
           "" [] Example.threeGroups 0 1 (Example.receiverGroup "c")
           (Example.receiverGroup "a") (Example.mkID "otlp" "") Example.start).
  - exact ascending_valid.
  - vm_compute; reflexivity.
  - reflexivity.
  - reflexivity.
  - lia.
  - simpl. left.
  - simpl. left.
  - vm_compute; reflexivity.
Defined.






(** C6 fails as stated: a receiver listed by three groups is reported
    twice, once for each occurrence after the first. *)
Lemma validator_reports_twice :
  @validateNoDuplicateReceivers Example.env Example.threeGroups []
  = [ critical (@duplicateReceiverMessage Example.env (Example.mkID "otlp" ""));
      critical (@duplicateReceiverMessage Example.env (Example.mkID "otlp" "")) ]
  /\ ~ (exists d, @validateNoDuplicateReceivers Example.env Example.threeGroups [] = [d]).
Proof.
  assert (Hrun :
    @validateNoDuplicateReceivers Example.env Example.threeGroups []
    = [ critical (@duplicateReceiverMessage Example.env (Example.mkID "otlp" ""));
        critical (@duplicateReceiverMessage Example.env (Example.mkID "otlp" "")) ])
    by (vm_compute; reflexivity).
  split; [exact Hrun|]. intros [d Hd]. rewrite Hrun in Hd. discriminate Hd.
Qed.

Lemma Convert_read_or_validate_failure_witness :
  @Convert Example.env Example.ascending (list_byte_of_string "empty") []
  = Done (None,
          [critical ("failed to validate config: "
                     +:+ "service::pipelines: service must have at least one pipeline")])
  /\ @Convert Example.env Example.ascending (list_byte_of_string "missing") []
     = Done (None,
             [critical ("failed to get otelcol config: "
                        +:+ "cannot unmarshal the configuration")]).
Proof.
  split.
  - apply (@Convert_read_or_validate_failure Example.env Example.ascending
             (list_byte_of_string "empty")).
    right. exists Example.empty,
      "service::pipelines: service must have at least one pipeline".
    split; [vm_compute; reflexivity|]. split; [vm_compute; reflexivity | reflexivity].
  - apply (@Convert_read_or_validate_failure Example.env Example.ascending
             (list_byte_of_string "missing")).
    left. vm_compute; reflexivity.
Defined.

Lemma unknown_factory_shape_skipped_by_registry_witness :
  @buildConverterTable Example.env [Example.strangeConverter]
  = @buildConverterTable Example.env []
  /\ (forall facts,
        addFactory facts Example.strangeConverter
        = Panicked (UnknownFactoryType (ConvFactory Example.strangeConverter))).
Proof.
  destruct (@unknown_factory_shape_skipped_by_registry Example.env []
              Example.strangeConverter eq_refl) as (Htable & _ & Hadd & _).
  split; [exact Htable | exact Hadd].
Defined.

Lemma connector_registered_under_three_keys_witness :
  @buildConverterTable Example.env []
  !! {| keyKind := KindExporter; keyType := "spanmetrics" |}
  = Some Example.spanmetricsConnector.
Proof.
  destruct (@connector_registered_under_three_keys Example.env []
              Example.spanmetricsConnector KindExporter) as (_ & _ & Honly).
  - simpl. do 3 right. left.
  - reflexivity.
  - right. left.
  - apply Honly. intros c' Hc' Hdecl.
    simpl in Hc'. unfold Example.builtins in Hc'.
    repeat (apply elem_of_cons in Hc' as [->|Hc']); try reflexivity;
      try (by apply not_elem_of_nil in Hc');
      destruct Hdecl as [Hk Ht]; simpl in Hk, Ht; try discriminate Ht;
      repeat (apply elem_of_cons in Hk as [Hk|Hk]); try discriminate Hk;
      by apply not_elem_of_nil in Hk.
Defined.

(** [filterIDs] on the example heap: a third array is added, the first two
    are as before. *)
Example filterIDs_on_example_heap :
  filterIDsOnHeap (fun n => 2 * n) Example.heap
                  (Some Example.inSlice) (Some Example.remSlice)
  = (Example.heap ++ [[Example.mkID "otlp" ""; Example.mkID "otlp" "2"]],
     Some {| sliceArray := 2; sliceOffset := 0; sliceLen := 2; sliceCap := 2 |}).
Proof. reflexivity. Qed.

(** * Further runs on the example instance *)

Lemma filterIDs_rem_as_set_witness :
  filterIDs [Example.mkID "otlp" ""; Example.mkID "count" ""]
            [Example.mkID "count" ""; Example.mkID "spanmetrics" ""]
  = filterIDs [Example.mkID "otlp" ""; Example.mkID "count" ""]
              [Example.mkID "spanmetrics" ""; Example.mkID "count" "";
               Example.mkID "count" ""].
Proof.
  apply (filterIDs_rem_as_set _ _ _).
  intros x. rewrite !elem_of_cons. tauto.
Defined.

Lemma validator_independent_of_key_order_witness :
  @validateNoDuplicateReceivers Example.env Example.threeGroups
    (Example.ascending (otelcol.Connectors Example.twoConnectors))
  = @validateNoDuplicateReceivers Example.env Example.threeGroups
      (Example.descending (otelcol.Connectors Example.twoConnectors)).
Proof.
  apply (@validator_independent_of_key_order Example.env Example.ascending
           Example.descending Example.threeGroups
           (otelcol.Connectors Example.twoConnectors)).
  - exact ascending_valid.
  - exact descending_valid.
Defined.

Lemma filterIDs_all_removed_returns_nil_witness :
  filterIDsOnHeap (fun n => 2 * n) Example.heap
                  (Some Example.remSlice) (Some Example.remSlice)
  = (Example.heap, None).
Proof.
  apply (filterIDs_all_removed_returns_nil (fun n => 2 * n) Example.heap
           (Some Example.remSlice) (Some Example.remSlice)).
  simpl. constructor; [by left | constructor].
Defined.

Lemma overrides_shadow_declared_keys_only_witness :
  @buildConverterTable Example.env [Example.customReceiver]
    !! {| keyKind := KindExporter; keyType := "otlp" |}
  = @buildConverterTable Example.env []
      !! {| keyKind := KindExporter; keyType := "otlp" |}.
Proof.
  apply (@overrides_shadow_declared_keys_only Example.env [Example.customReceiver]
           {| keyKind := KindExporter; keyType := "otlp" |}).
  intros override Hin [Hkind _].
  apply list_elem_of_singleton in Hin as ->. simpl in Hkind.
  apply list_elem_of_singleton in Hkind. discriminate Hkind.
Defined.


Lemma Convert_with_unknown_builtin_witness :
  exists bad,
    bad ∈ @converters Example.broken
    /\ factShape (ConvFactory bad) = OtherFactory
    /\ @Convert Example.broken Example.ascending (list_byte_of_string "bridged") []
       = Panicked (UnknownFactoryType (ConvFactory bad)).
Proof.
  apply (@Convert_with_unknown_builtin Example.broken Example.ascending
           (list_byte_of_string "bridged") Example.strangeConverter).
  - simpl. do 6 right. left.
  - reflexivity.
Defined.

Lemma Convert_output_inversion_witness :
  exists out diags,
    @Convert Example.env Example.ascending (list_byte_of_string "flagged") []
    = Done (Some out, diags)
    /\ exists c appended w buf newDiags,
         @readOpentelemetryConfig Example.env (list_byte_of_string "flagged")
         = Done (inr c)
         /\ @Validate Example.env c = None
         /\ @AppendConfig Example.env Example.ascending c "" [] Example.start
            = Done (appended, w)
         /\ @WriteTo Example.env (file w) = inr buf
         /\ buf <> []
         /\ @PrettyPrint Example.env buf = (Some out, newDiags)
         /\ diags = appended ++ @ValidateNodes Example.env (file w) ++ newDiags.
Proof.
  assert (Hrun : exists out diags,
    @Convert Example.env Example.ascending (list_byte_of_string "flagged") []
    = Done (Some out, diags)) by (eexists _, _; vm_compute; reflexivity).
  destruct Hrun as (out & diags & Hrun). exists out, diags. split; [exact Hrun|].
  exact (proj2 (@Convert_output_inversion Example.env Example.ascending
                  (list_byte_of_string "flagged") [] out diags Hrun)).
Defined.


Lemma AppendConfig_stops_at_first_miss_witness :
  @AppendConfig Example.env Example.ascending Example.unsupported "" [] Example.start
  = Panicked (NoConverterFound {| keyKind := KindReceiver; keyType := "jaeger" |}).
Proof.
  assert (Hgroups :
    @createPipelineGroups Example.env
      (service.Pipelines (otelcol.Service Example.unsupported))
    = inr Example.unsupportedGroups) by (vm_compute; reflexivity).
  assert (Hval :
    @validateNoDuplicateReceivers Example.env Example.unsupportedGroups
      (Example.ascending (otelcol.Connectors Example.unsupported)) = [])
    by (vm_compute; reflexivity).
  destruct (@AppendConfig_stops_at_first_miss Example.env Example.ascending
              Example.unsupported "" [] Example.unsupportedGroups Example.start
              Hgroups Hval) as [Hstop _].
  assert (Hmiss :
    firstMiss (@buildConverterTable Example.env [])
      (dispatchPlan (service.Extensions (otelcol.Service Example.unsupported))
         (Example.ascending (otelcol.Connectors Example.unsupported))
         Example.unsupportedGroups)
    = Some (NewInstanceID (Example.mkID "jaeger" "") KindReceiver))
    by (vm_compute; reflexivity).
  rewrite Hmiss in Hstop. exact Hstop.
Defined.

Lemma withExtension_returns :
  exists d w',
    @AppendConfig Example.env Example.ascending Example.withExtension "" []
                  Example.start = Done (d, w').
Proof. apply dispatch_returns. vm_compute. discriminate. Qed.

Lemma withExtension_groups :
  @createPipelineGroups Example.env
    (service.Pipelines (otelcol.Service Example.withExtension))
  = inr Example.withExtensionGroups.
Proof. vm_compute; reflexivity. Qed.

Lemma withExtension_passes :
  @validateNoDuplicateReceivers Example.env Example.withExtensionGroups
    (Example.ascending (otelcol.Connectors Example.withExtension)) = [].
Proof. vm_compute; reflexivity. Qed.

Lemma strategies_get_their_context_witness :
  exists d w' cs1 cs2 et,
    @AppendConfig Example.env Example.ascending Example.withExtension "" []
                  Example.start = Done (d, w')
    /\ calls w' = calls Example.start ++ cs1 ++ cs2
    /\ map callID cs1
       = instancesOf KindExtension
           (service.Extensions (otelcol.Service Example.withExtension))
    /\ Forall (extensionCallOK Example.withExtension ""
                 (@buildConverterTable Example.env [])) cs1
    /\ map groupOf cs2
       = groupedPlan (Example.ascending (otelcol.Connectors Example.withExtension))
                     Example.withExtensionGroups
    /\ Forall (groupCallOK Example.withExtension ""
                 (@buildConverterTable Example.env []) et) cs2.
Proof.
  destruct withExtension_returns as (d & w' & Hrun).
  destruct (@strategies_get_their_context Example.env Example.ascending
              Example.withExtension "" [] Example.withExtensionGroups
              Example.start d w' withExtension_groups withExtension_passes Hrun)
    as (cs1 & cs2 & et & H).
  exists d, w', cs1, cs2, et. exact (conj Hrun H).
Defined.

Lemma extension_table_is_complete_witness :
  exists d w' cs et,
    @AppendConfig Example.env Example.ascending Example.withExtension "" []
                  Example.start = Done (d, w')
    /\ calls w' = calls Example.start ++ cs
    /\ (forall ext,
          is_Some (et !! ext)
          <-> ext ∈ service.Extensions (otelcol.Service Example.withExtension))
    /\ (forall call, call ∈ cs ->
          extensionLookup (callState call)
          = if decide (InstanceKind (callID call) = KindExtension) then ∅ else et).
Proof.
  destruct withExtension_returns as (d & w' & Hrun).
  destruct (@extension_table_is_complete Example.env Example.ascending
              Example.withExtension "" [] Example.withExtensionGroups
              Example.start d w' withExtension_groups withExtension_passes Hrun)
    as (cs & et & Hc & Hlook & Hdom & _).
  exists d, w', cs, et. exact (conj Hrun (conj Hc (conj Hdom Hlook))).
Defined.

Lemma dispatch_repeats_what_is_listed_witness :
  exists d w' cs,
    @AppendConfig Example.env Example.ascending Example.withExtension "" []
                  Example.start = Done (d, w')
    /\ calls w' = calls Example.start ++ cs
    /\ occurrences (NewInstanceID (Example.mkID "batch" "") KindProcessor)
                   (map callID cs) = 1.
Proof.
  destruct withExtension_returns as (d & w' & Hrun).
  destruct (@dispatch_repeats_what_is_listed Example.env Example.ascending
              Example.withExtension "" [] Example.withExtensionGroups
              Example.start d w' withExtension_groups withExtension_passes Hrun)
    as (cs & Hc & Hcount).
  exists d, w', cs. split; [exact Hrun|]. split; [exact Hc|].
  destruct (Hcount (Example.mkID "batch" "")) as (_ & Hproc & _).
  rewrite Hproc. reflexivity.
Defined.


